(** * pyup.requirements: requirement files, requirements and the version resolver

    A shallow embedding of [pyup/requirements.py].  Python text is a list of
    characters; the calls into [pkg_resources], [packaging] and the package
    catalogue are operations of two interfaces ([PkgResources], [Catalog]);
    the regular expression of [update_content] is run by a small matcher for
    the constructs it uses, and [re.sub] by a left-to-right scanner. *)

From Stdlib Require Import Ascii String List Bool Arith NArith Lia Sorted.
Import ListNotations.

Set Implicit Arguments.

Definition str := list ascii.

Notation "'L' s" := (list_ascii_of_string s) (at level 9, s at level 0, only parsing).

(** ** Exceptions *)

Inductive exn :=
| TypeError | ValueError | IndexError | AttributeError | InvalidSpecifier | ReError.

Inductive res (A : Type) :=
| Ok (a : A)
| Raise (e : exn).
Arguments Ok {A} a.
Arguments Raise {A} e.

Definition bind {A B} (c : res A) (k : A -> res B) : res B :=
  match c with
  | Ok a => k a
  | Raise e => Raise e
  end.

Notation "x <- c ;; k" := (bind c (fun x => k))
  (at level 61, c at next level, right associativity).

Definition raises {A} (c : res A) : Prop := exists e, c = Raise e.

(** ** Python string methods *)

Module Py.

Definition LF : ascii := "010"%char.
Definition CR : ascii := "013"%char.
Definition TAB : ascii := "009"%char.

Definition str_eqb (a b : str) : bool :=
  if list_eq_dec ascii_dec a b then true else false.

(** [str.startswith] *)
Fixpoint startswith (p s : str) : bool :=
  match p, s with
  | [], _ => true
  | _ :: _, [] => false
  | a :: p', b :: s' => Ascii.eqb a b && startswith p' s'
  end.

(** [str.endswith] *)
Definition endswith (p s : str) : bool := startswith (rev p) (rev s).

(** [sub in s] *)
Fixpoint isin (sub s : str) : bool :=
  startswith sub s ||
  match s with
  | [] => false
  | _ :: t => isin sub t
  end.

(** Characters for which [str.isspace] holds, among the code points below 256. *)
Definition isspace (c : ascii) : bool :=
  let n := nat_of_ascii c in
  ((9 <=? n) && (n <=? 13)) || ((28 <=? n) && (n <=? 32)) || (n =? 133) || (n =? 160).

Fixpoint lstrip (s : str) : str :=
  match s with
  | c :: t => if isspace c then lstrip t else s
  | [] => []
  end.

Definition rstrip (s : str) : str := rev (lstrip (rev s)).

(** [str.strip()] *)
Definition strip (s : str) : str := rstrip (lstrip s).

(** [str.partition(sep)] when [sep] occurs: the text before and after its
    first occurrence. *)
Fixpoint partition (sep s : str) : option (str * str) :=
  if startswith sep s then Some ([], skipn (length sep) s)
  else match s with
       | [] => None
       | c :: t => match partition sep t with
                   | Some (b, a) => Some (c :: b, a)
                   | None => None
                   end
       end.

Fixpoint split_fuel (n : nat) (sep s : str) : list str :=
  match n with
  | 0 => [s]
  | S n' => match partition sep s with
            | None => [s]
            | Some (b, a) => b :: split_fuel n' sep a
            end
  end.

(** [s.split(sep)] for a non-empty separator. *)
Definition split (sep s : str) : list str := split_fuel (length s) sep s.

(** [sep.join(parts)] *)
Fixpoint join (sep : str) (parts : list str) : str :=
  match parts with
  | [] => []
  | [p] => p
  | p :: ps => p ++ sep ++ join sep ps
  end.

(** [s.replace(old, new)] for a non-empty [old]. *)
Definition replace (old new s : str) : str := join new (split old s).

(** Line boundaries of [str.splitlines], among the code points below 256. *)
Definition is_linebreak (c : ascii) : bool :=
  let n := nat_of_ascii c in
  ((10 <=? n) && (n <=? 13)) || ((28 <=? n) && (n <=? 30)) || (n =? 133).

Fixpoint splitlines_from (cur : str) (s : str) : list str :=
  match s with
  | [] => match cur with [] => [] | _ => [rev cur] end
  | c :: t =>
      if is_linebreak c then
        rev cur ::
          match t with
          | d :: t' => if Ascii.eqb c CR && Ascii.eqb d LF
                       then splitlines_from [] t'
                       else splitlines_from [] t
          | [] => splitlines_from [] t
          end
      else splitlines_from (c :: cur) t
  end.

(** [s.splitlines()] *)
Definition splitlines (s : str) : list str := splitlines_from [] s.

(** [str(v)] of an optional string, as [format] prints it. *)
Definition format_opt (v : option str) : str :=
  match v with
  | Some s => s
  | None => L"None"
  end.

End Py.

(** ** The fragment of [re] that [update_content] uses *)

Module Re.

(** Pattern items, with [^] and [$] read under [re.MULTILINE]; [Lit s] is
    what [re.escape s] compiles to (every character stands for itself),
    [Opt c] is [c?]. *)
Inductive atom :=
| Bol
| Eol
| Lit (s : str)
| Opt (c : ascii).

(** A pattern [body(?=lookahead)]. *)
Record pattern := { body : list atom; lookahead : list atom }.

Fixpoint strip_prefix (p s : str) : option str :=
  match p, s with
  | [], _ => Some s
  | _ :: _, [] => None
  | a :: p', b :: s' => if Ascii.eqb a b then strip_prefix p' s' else None
  end.

(** Backtracking match of a sequence of items at the current position:
    [prev] is the character before the position, [inp] the text from it.
    The result is the text left after the match. *)
Fixpoint match_seq (rs : list atom) (prev : option ascii) (inp : str) : option str :=
  match rs with
  | [] => Some inp
  | Bol :: rs' =>
      match prev with
      | None => match_seq rs' prev inp
      | Some c => if Ascii.eqb c Py.LF then match_seq rs' prev inp else None
      end
  | Eol :: rs' =>
      match inp with
      | [] => match_seq rs' prev inp
      | c :: _ => if Ascii.eqb c Py.LF then match_seq rs' prev inp else None
      end
  | Lit s :: rs' =>
      match strip_prefix s inp with
      | Some rest => match_seq rs' (match rev s with c :: _ => Some c | [] => prev end) rest
      | None => None
      end
  | Opt c :: rs' =>
      match inp with
      | d :: t =>
          if Ascii.eqb c d then
            match match_seq rs' (Some d) t with
            | Some r => Some r
            | None => match_seq rs' prev inp
            end
          else match_seq rs' prev inp
      | [] => match_seq rs' prev inp
      end
  end.

(** The number of characters a match of [p] at the current position
    consumes, if there is one. *)
Definition match_at (p : pattern) (prev : option ascii) (inp : str) : option nat :=
  match match_seq (body p) prev inp with
  | Some rest =>
      let n := length inp - length rest in
      match match_seq (lookahead p)
                      (match rev (firstn n inp) with c :: _ => Some c | [] => prev end)
                      rest with
      | Some _ => Some n
      | None => None
      end
  | None => None
  end.

(** Replacement templates.  A template is compiled before the text is
    searched; the pattern here has no capture group, so the only group a
    template may name is the whole match. *)
Inductive piece :=
| PChar (c : ascii)
| PMatch.

Definition is_digit (c : ascii) : bool :=
  let n := nat_of_ascii c in (48 <=? n) && (n <=? 57).

Definition is_octdigit (c : ascii) : bool :=
  let n := nat_of_ascii c in (48 <=? n) && (n <=? 55).

Definition is_ascii_letter (c : ascii) : bool :=
  let n := nat_of_ascii c in
  ((65 <=? n) && (n <=? 90)) || ((97 <=? n) && (n <=? 122)).

Definition digit_val (c : ascii) : nat := nat_of_ascii c - 48.

(** The escapes a template turns into one character. *)
Definition escape_char (c : ascii) : option ascii :=
  match c with
  | "a"%char => Some "007"%char
  | "b"%char => Some "008"%char
  | "f"%char => Some "012"%char
  | "n"%char => Some "010"%char
  | "r"%char => Some "013"%char
  | "t"%char => Some "009"%char
  | "v"%char => Some "011"%char
  | "\"%char => Some "\"%char
  | _ => None
  end.

Fixpoint take_until (stop : ascii) (s : str) : option (str * str) :=
  match s with
  | [] => None
  | c :: t =>
      if Ascii.eqb c stop then Some ([], t)
      else match take_until stop t with
           | Some (a, b) => Some (c :: a, b)
           | None => None
           end
  end.

Definition cons_piece (p : piece) (r : res (list piece)) : res (list piece) :=
  ps <- r ;; Ok (p :: ps).

(** [sre_parse.parse_template] for a pattern with no group: a backslash
    starts an escape; [\g<0>] is the whole match, every other group
    reference and every malformed escape raises ([ReError] stands for the
    exception, whichever it is).  The escapes are those of CPython 3.7 and
    later, where an unknown escape of a letter is an error; [\g] without
    [<] and a backslash at the end are refused by every version. *)
Fixpoint parse_template_fuel (n : nat) (s : str) : res (list piece) :=
  match n with
  | 0 => Ok []
  | S n' =>
      match s with
      | [] => Ok []
      | b :: s' =>
          if negb (Ascii.eqb b "\"%char)
          then cons_piece (PChar b) (parse_template_fuel n' s')
          else
            match s' with
            | [] => Raise ReError
            | c :: t =>
                if Ascii.eqb c "g"%char then
                  match t with
                  | [] => Raise ReError
                  | a :: t' =>
                      if Ascii.eqb a "<"%char then
                        match take_until ">"%char t' with
                        | Some (nm, rest) =>
                            if negb (length nm =? 0) && forallb (Ascii.eqb "0"%char) nm
                            then cons_piece PMatch (parse_template_fuel n' rest)
                            else Raise ReError
                        | None => Raise ReError
                        end
                      else Raise ReError
                  end
                else if Ascii.eqb c "0"%char then
                  match t with
                  | d1 :: d2 :: t2 =>
                      if is_octdigit d1 && is_octdigit d2
                      then cons_piece (PChar (ascii_of_nat (8 * digit_val d1 + digit_val d2)))
                                      (parse_template_fuel n' t2)
                      else if is_octdigit d1
                      then cons_piece (PChar (ascii_of_nat (digit_val d1)))
                                      (parse_template_fuel n' (d2 :: t2))
                      else cons_piece (PChar zero) (parse_template_fuel n' t)
                  | [d1] =>
                      if is_octdigit d1
                      then Ok [PChar (ascii_of_nat (digit_val d1))]
                      else cons_piece (PChar zero) (parse_template_fuel n' t)
                  | [] => Ok [PChar zero]
                  end
                else if is_digit c then
                  match t with
                  | d1 :: d2 :: t2 =>
                      if is_octdigit c && is_octdigit d1 && is_octdigit d2 then
                        let v := 64 * digit_val c + 8 * digit_val d1 + digit_val d2 in
                        if v <=? 255
                        then cons_piece (PChar (ascii_of_nat v)) (parse_template_fuel n' t2)
                        else Raise ReError
                      else Raise ReError
                  | _ => Raise ReError
                  end
                else
                  match escape_char c with
                  | Some e => cons_piece (PChar e) (parse_template_fuel n' t)
                  | None =>
                      if is_ascii_letter c then Raise ReError
                      else cons_piece (PChar "\"%char)
                                      (cons_piece (PChar c) (parse_template_fuel n' t))
                  end
            end
      end
  end.

Definition parse_template (s : str) : res (list piece) :=
  parse_template_fuel (length s) s.

(** [match.expand]: the template's text for the matched text [m]. *)
Fixpoint expand (ps : list piece) (m : str) : str :=
  match ps with
  | [] => []
  | PChar c :: ps' => c :: expand ps' m
  | PMatch :: ps' => m ++ expand ps' m
  end.

(** The scan of [re.sub]: at each position outside a match the pattern is
    tried; a match is replaced and the scan resumes after it ([skip] counts
    the matched characters still to pass); an empty match is replaced and
    the character after it copied. *)
Fixpoint sub_scan (p : pattern) (repl : str -> str)
         (prev : option ascii) (skip : nat) (s : str) : str :=
  match skip with
  | S k =>
      match s with
      | c :: t => sub_scan p repl (Some c) k t
      | [] => []
      end
  | 0 =>
      match match_at p prev s with
      | Some n =>
          repl (firstn n s) ++
          match s with
          | c :: t =>
              match n with
              | 0 => c :: sub_scan p repl (Some c) 0 t
              | S k => sub_scan p repl (Some c) k t
              end
          | [] => []
          end
      | None =>
          match s with
          | c :: t => c :: sub_scan p repl (Some c) 0 t
          | [] => []
          end
      end
  end.

(** [re.sub(pattern, repl, string, flags=re.MULTILINE)] with a string
    [repl]. *)
Definition sub (p : pattern) (repl : str) (s : str) : res str :=
  ps <- parse_template repl ;;
  Ok (sub_scan p (expand ps) None 0 s).

End Re.

(** ** The collaborators *)

(** A constraint: an operator and a version, as in [("==", "1.2.3")]. *)
Definition spec := (str * str)%type.

(** What [pkg_resources.parse_requirements] yields for one declaration:
    the fields [Requirement.parse] reads. *)
Record Distribution (H : Type) := {
  project_name : str;
  dist_specs : list spec;
  dist_hashCmp : H
}.

(** [pkg_resources] and [packaging], as far as this module calls them.
    - [parse_version] always returns a version (text that is no PEP 440
      version becomes a legacy version); versions are compared by
      [version_lt], the [<] of their keys;
    - [new_SpecifierSet] is the constructor of [SpecifierSet]; [None] is its
      [InvalidSpecifier];
    - [spec_contains] is [SpecifierSet.contains(version, prereleases=...)];
    - [parse_requirements] is the list the generator yields; [None] is the
      [ValueError] of a declaration that does not parse. *)
Class PkgResources := {
  Version : Type;
  parse_version : str -> Version;
  version_lt : Version -> Version -> bool;
  is_prerelease : Version -> bool;
  SpecifierSet : Type;
  new_SpecifierSet : str -> option SpecifierSet;
  spec_contains : SpecifierSet -> str -> option bool -> bool;
  HashCmp : Type;
  hashCmp_eqb : HashCmp -> HashCmp -> bool;
  parse_requirements : str -> option (list (Distribution HashCmp))
}.

(** Modelled from the spec: the [Package] of [pyup/package.py], which is
    not part of this module.  [versions] are the known version strings and
    [latest_version_of prereleases] is [Package.latest_version(prereleases)],
    the highest acceptable version or none. *)
Record Package := {
  versions : list str;
  latest_version_of : bool -> option str
}.

(** Modelled from the spec: [fetch_package(name, index_server)] of
    [pyup/package.py]; [None] is the [None] it returns for a package the
    index does not know.  A requirement fetches its package once and keeps
    it, so within one requirement the answer does not change. *)
Class Catalog := {
  fetch_package : str -> option str -> option Package
}.

(** The order of version keys: [<] is a strict weak order, which is what
    makes the result of the sort independent of the sorting algorithm. *)
Record VersionOrder (lib : PkgResources) : Prop := {
  lt_irrefl : forall a, version_lt a a = false;
  lt_trans : forall a b c,
      version_lt a b = true -> version_lt b c = true -> version_lt a c = true;
  lt_cotrans : forall a b c,
      version_lt a c = true -> version_lt a b = true \/ version_lt b c = true
}.

Section Requirements.

Context {lib : PkgResources} {catalog : Catalog}.

(** [parse_version(v)] where [v] may be [None]: the version parser takes
    text only. *)
Definition py_parse_version (v : option str) : res Version :=
  match v with
  | Some s => Ok (parse_version s)
  | None => Raise TypeError
  end.

(** [sorted(candidates, key=parse_version, reverse=True)]: the sort is
    stable, also when reversed, so versions of equal key keep their order. *)
Fixpoint insert_desc (x : str) (l : list str) : list str :=
  match l with
  | [] => [x]
  | y :: ys =>
      if version_lt (parse_version x) (parse_version y)
      then y :: insert_desc x ys
      else x :: l
  end.

Fixpoint sorted_desc (l : list str) : list str :=
  match l with
  | [] => []
  | x :: xs => insert_desc x (sorted_desc xs)
  end.

(** ** Requirement *)

(** The attributes the methods below read.  [key] and [pull_request] are
    read by none of them, and the cached package is [package] below. *)
Record Requirement := {
  name : str;
  specs : list spec;
  hashCmp : HashCmp;
  line : str;
  lineno : nat;
  index_server : option str
}.

Definition set_specs (r : Requirement) (s : list spec) : Requirement :=
  {| name := name r; specs := s; hashCmp := hashCmp r; line := line r;
     lineno := lineno r; index_server := index_server r |}.



Definition is_pinned (r : Requirement) : bool :=
  match specs r with
  | [(op, _)] => Py.str_eqb op (L"==")
  | _ => false
  end.

Definition is_ranged (r : Requirement) : bool :=
  (1 <=? length (specs r)) && negb (is_pinned r).

Definition is_loose (r : Requirement) : bool := length (specs r) =? 0.

(** [parsed, = parse_requirements(s)]: exactly one declaration, else
    [ValueError]. *)
Definition parse_one (s : str) : res (Distribution HashCmp) :=
  match parse_requirements s with
  | Some [parsed] => Ok parsed
  | _ => Raise ValueError
  end.

(** The text after the first [marker], stripped, up to its first space. *)
Definition directive_after (marker ln : str) : str :=
  nth 0 (Py.split (L" ") (Py.strip (nth 1 (Py.split marker ln) []))) [].

(** [Requirement.filter]: [None] is the [False] of the source. *)
Definition filter (r : Requirement) : option (list spec) :=
  let rqfilter :=
    if Py.isin (L"rq.filter:") (line r) then Some (directive_after (L"rq.filter:") (line r))
    else if Py.isin (L"pyup:") (line r) then Some (directive_after (L"pyup:") (line r))
    else None in
  match rqfilter with
  | Some (c :: f) =>
      match parse_one (L"filter " ++ c :: f) with
      | Ok parsed =>
          if 0 <? length (dist_specs parsed) then Some (dist_specs parsed) else None
      | Raise _ => None
      end
  | _ => None
  end.

(** [Requirement.package]: fetched on first use and kept. *)
Definition package (r : Requirement) : option Package :=
  fetch_package (name r) (index_server r).

(** [self.package.versions] *)
Definition package_versions (r : Requirement) : res (list str) :=
  match package r with
  | Some p => Ok (versions p)
  | None => Raise AttributeError
  end.

(** [Requirement.prereleases] *)
Definition prereleases (r : Requirement) : bool :=
  is_pinned r &&
  match specs r with
  | (_, v) :: _ => is_prerelease (parse_version v)
  | [] => false
  end.

(** [",".join(["".join([x, y]) for x, y in specs])] *)
Definition specifier_text (specs : list spec) : str :=
  Py.join (L",") (map (fun xy => Py.join [] [fst xy; snd xy]) specs).

(** [Requirement.get_latest_version_within_specs] *)
Definition get_latest_version_within_specs
    (specs : list spec) (versions : list str) (prereleases : option bool)
  : res (option str) :=
  match new_SpecifierSet (specifier_text specs) with
  | None => Raise InvalidSpecifier
  | Some spec_set =>
      let candidates :=
        List.filter (fun version => spec_contains spec_set version prereleases) versions in
      let candidates := sorted_desc candidates in
      match candidates with
      | c :: _ => Ok (Some c)
      | [] => Ok None
      end
  end.

(** [Requirement.version].  For a requirement that is not pinned and has a
    filter, [specs += self.filter] extends the list of the requirement
    itself, so the requirement is returned with the value. *)
Definition version (r : Requirement) : Requirement * res (option str) :=
  if is_pinned r then
    (r, match specs r with
        | (_, v) :: _ => Ok (Some v)
        | [] => Raise IndexError
        end)
  else
    let r' := match filter r with
              | Some f => set_specs r (specs r ++ f)
              | None => r
              end in
    (r', vs <- package_versions r' ;;
         get_latest_version_within_specs (specs r') vs (Some (prereleases r'))).

(** [Requirement.latest_version] *)
Definition latest_version (r : Requirement) : res (option str) :=
  match package r with
  | Some p => Ok (latest_version_of p (prereleases r))
  | None => Raise AttributeError
  end.

(** [Requirement.latest_version_within_specs] *)
Definition latest_version_within_specs (r : Requirement) : res (option str) :=
  match filter r with
  | Some f =>
      vs <- package_versions r ;;
      get_latest_version_within_specs f vs (Some (prereleases r))
  | None => latest_version r
  end.

(** [Requirement.is_outdated]: the left operand is evaluated, and parsed,
    before the right one. *)
Definition is_outdated (r : Requirement) : Requirement * res bool :=
  let (r1, v) := version r in
  (r1, v <- v ;;
       a <- py_parse_version v ;;
       lv <- latest_version_within_specs r1 ;;
       b <- py_parse_version lv ;;
       Ok (version_lt a b)).

(** [Requirement.needs_update] *)
Definition needs_update (r : Requirement) : Requirement * res bool :=
  if is_pinned r || is_ranged r then is_outdated r else (r, Ok true).

(** The line [update_content] writes: [name==version], and the text after
    the first [#] of the original line behind [" #"]. *)
Definition new_line (r : Requirement) (v : option str) : str :=
  let nl := name r ++ L"==" ++ Py.format_opt v in
  if Py.isin (L"#") (line r)
  then nl ++ L" #" ++ Py.join (L"#") (tl (Py.split (L"#") (line r)))
  else nl.

(** The pattern [^<escaped line>(?=\r?\n?$)]. *)
Definition line_regex (ln : str) : Re.pattern :=
  {| Re.body := [Re.Bol; Re.Lit ln];
     Re.lookahead := [Re.Opt Py.CR; Re.Opt Py.LF; Re.Eol] |}.

(** The physical lines the pattern sees: the text between line feeds. *)
Fixpoint lf_lines (s : str) : list str :=
  match s with
  | [] => [[]]
  | c :: t =>
      if Ascii.eqb c Py.LF then [] :: lf_lines t
      else match lf_lines t with
           | h :: r => (c :: h) :: r
           | [] => [[c]]
           end
  end.

(** What becomes of one physical line: the line [old], alone or before a
    carriage return, is replaced by [new]; any other line stays. *)
Definition rewrite_line (old new seg : str) : str :=
  if Py.str_eqb seg old then new
  else if Py.str_eqb seg (old ++ [Py.CR]) then new ++ [Py.CR]
  else seg.

(** [^] under [re.MULTILINE]. *)
Definition at_bol (prev : option ascii) : bool :=
  match prev with
  | None => true
  | Some c => Ascii.eqb c Py.LF
  end.

(** The text a match of [\r?\n?$] can start with. *)
Definition eol_ahead (rest : str) : bool :=
  match rest with
  | [] => true
  | c :: t =>
      Ascii.eqb c Py.LF ||
      (Ascii.eqb c Py.CR && match t with [] => true | d :: _ => Ascii.eqb d Py.LF end)
  end.

(** [c in s] for one character. *)
Definition has_char (c : ascii) (s : str) : bool := existsb (Ascii.eqb c) s.

(** The character before the position reached after [xs]. *)
Definition prev_after (xs : str) (p : option ascii) : option ascii :=
  match rev xs with
  | c :: _ => Some c
  | [] => p
  end.

(** The scan of the text that follows a physical line: the line feed is
    copied and the scan goes on behind it. *)
Definition scan_after (ln : str) (repl : str -> str) (rest : str) : str :=
  match rest with
  | [] => []
  | c :: t => c :: Re.sub_scan (line_regex ln) repl (Some c) 0 t
  end.

(** [Requirement.update_content] *)
Definition update_content (r : Requirement) (content : str) : res str :=
  v <- latest_version_within_specs r ;;
  Re.sub (line_regex (line r)) (new_line r v) content.

(** [Requirement.parse] *)
Definition parse (s : str) (lineno : nat) (index_server : option str) : res Requirement :=
  parsed <- (if Py.isin (Py.TAB :: L"#") s
             then parse_one (Py.replace (Py.TAB :: L"#") (Py.TAB :: L" #") s)
             else parse_one s) ;;
  Ok {| name := project_name parsed; specs := dist_specs parsed;
        hashCmp := dist_hashCmp parsed; line := s; lineno := lineno;
        index_server := index_server |}.

(** ** RequirementFile *)

(** The three cached fields start as [None]; [parse_passes] is a ghost
    field counting the calls of [_parse]. *)
Record RequirementFile := {
  path : str;
  content : str;
  sha : option str;
  _requirements : option (list Requirement);
  _other_files : option (list str);
  _is_valid : option bool;
  parse_passes : nat
}.

(** [RequirementFile(path, content, sha)] *)
Definition new_file (path content : str) (sha : option str) : RequirementFile :=
  {| path := path; content := content; sha := sha;
     _requirements := None; _other_files := None; _is_valid := None;
     parse_passes := 0 |}.

(** [RequirementFile.parse_index_server] *)
Definition parse_index_server (line : str) : option str :=
  let line := nth 0 (Py.split (L"#") line) [] in
  match Py.split (L" ") line with
  | _ :: u :: _ =>
      let url := Py.strip u in
      Some (if Py.endswith (L"/") url then url else url ++ L"/")
  | _ => None
  end.

(** [RequirementFile.resolve_file] *)
Definition resolve_file (file_path line : str) : str :=
  let line := Py.replace (L"--requirement ") [] (Py.replace (L"-r ") [] line) in
  let parts := Py.split (L"/") file_path in
  let line := if Py.isin (L" #") line
              then Py.strip (nth 0 (Py.split (L"#") line) [])
              else line in
  if length parts =? 1 then line
  else Py.join (L"/") (removelast parts) ++ L"/" ++ line.

Definition is_index_directive (line : str) : bool :=
  Py.startswith (L"-i") line || Py.startswith (L"--index-url") line ||
  Py.startswith (L"--extra-index-url") line.

Definition is_include_directive (line : str) : bool :=
  Py.startswith (L"-r") line || Py.startswith (L"--requirement") line.

Definition is_noop_flag (line : str) : bool :=
  Py.startswith (L"-f") line || Py.startswith (L"--find-links") line ||
  Py.startswith (L"--no-index") line || Py.startswith (L"--allow-external") line ||
  Py.startswith (L"--allow-unverified") line || Py.startswith (L"-Z") line ||
  Py.startswith (L"--always-unzip") line.

(** The loop of [_parse] from line index [num] on, with the index server
    and the two lists so far.  The result is the two lists and the value
    [_is_valid] is left with: [false] at the early [return], the test on
    the lists after the last line.  [parse] raises [ValueError] only, which
    the loop catches. *)
Fixpoint parse_lines (path : str) (num : nat) (lines : list str)
         (index_server : option str) (reqs : list Requirement) (files : list str)
  : list Requirement * list str * bool :=
  match lines with
  | [] => (reqs, files, (0 <? length reqs) || (0 <? length files))
  | raw :: rest =>
      let line := Py.strip raw in
      let continue := parse_lines path (S num) rest in
      match line with
      | [] => continue index_server reqs files
      | _ :: _ =>
          if Py.isin (L"pyup: ignore file") line && ((num =? 0) || (num =? 1))
          then (reqs, files, false)
          else if Py.startswith (L"#") line then continue index_server reqs files
          else if is_index_directive line
          then continue (parse_index_server line) reqs files
          else if is_include_directive line
          then continue index_server reqs (files ++ [resolve_file path line])
          else if is_noop_flag line then continue index_server reqs files
          else if Py.isin (L"pyup: ignore") line then continue index_server reqs files
          else
            match parse line (num + 1) index_server with
            | Ok req =>
                match package req with
                | Some _ => continue index_server (reqs ++ [req]) files
                | None => continue index_server reqs files
                end
            | Raise _ => continue index_server reqs files
            end
      end
  end.

(** [RequirementFile.iter_lines] *)
Definition iter_lines (rf : RequirementFile) : list str := Py.splitlines (content rf).

(** [RequirementFile._parse] *)
Definition _parse (rf : RequirementFile) : RequirementFile :=
  let '(reqs, files, valid) := parse_lines (path rf) 0 (iter_lines rf) None [] [] in
  {| path := path rf; content := content rf; sha := sha rf;
     _requirements := Some reqs; _other_files := Some files; _is_valid := Some valid;
     parse_passes := S (parse_passes rf) |}.

(** [not x] for a cached list: true for [None] and for the empty list. *)
Definition py_not {A} (x : option (list A)) : bool :=
  match x with
  | Some (_ :: _) => false
  | _ => true
  end.

(** [RequirementFile.is_valid] *)
Definition is_valid (rf : RequirementFile) : RequirementFile * option bool :=
  let rf' := match _is_valid rf with None => _parse rf | Some _ => rf end in
  (rf', _is_valid rf').

(** [RequirementFile.requirements] *)
Definition requirements (rf : RequirementFile) : RequirementFile * option (list Requirement) :=
  let rf' := if py_not (_requirements rf) then _parse rf else rf in
  (rf', _requirements rf').

(** [RequirementFile.other_files] *)
Definition other_files (rf : RequirementFile) : RequirementFile * option (list str) :=
  let rf' := if py_not (_other_files rf) then _parse rf else rf in
  (rf', _other_files rf').

(** The index server in effect at line index [k]: what the last index
    directive among the lines before [k] gave, none before the first. *)
Definition index_in_effect (lines : list str) (k : nat) : option str :=
  fold_left (fun cur raw =>
               if is_index_directive (Py.strip raw)
               then parse_index_server (Py.strip raw) else cur)
            (firstn k lines) None.

(** An index server, when there is one, ends with a slash. *)
Definition slash_ended (o : option str) : Prop :=
  match o with
  | Some u => Py.endswith (L"/") u = true
  | None => True
  end.

(** What holds of a requirement recorded from the lines [all]: it sits on
    one of them and carries the index server in effect there. *)
Definition placed (all : list str) (r : Requirement) : Prop :=
  1 <= lineno r <= length all /\
  line r = Py.strip (nth (lineno r - 1) all []) /\
  index_server r = index_in_effect all (lineno r - 1) /\
  slash_ended (index_server r).

End Requirements.

(** ** RequirementsBundle *)

Section Bundle.

Context {lib : PkgResources} {catalog : Catalog}.

(** The bundle is a list of requirement files. *)
Definition RequirementsBundle := list RequirementFile.

(** [RequirementsBundle.has_file_in_path] *)
Definition has_file_in_path (b : RequirementsBundle) (p : str) : bool :=
  existsb (fun req_file => Py.str_eqb p (path req_file)) b.

(** [RequirementsBundle.requirements], run to its end: the requirements
    of each file in turn, read through the accessor of the file, which may
    fill the cache of the file. *)
Fixpoint bundle_requirements (b : RequirementsBundle)
  : RequirementsBundle * list Requirement :=
  match b with
  | [] => ([], [])
  | req_file :: rest =>
      let (req_file', reqs) := requirements req_file in
      let (rest', more) := bundle_requirements rest in
      (req_file' :: rest', match reqs with Some l => l ++ more | None => more end)
  end.

(** What one parse pass over the content of a file gives. *)
Definition parsed_fields (rf : RequirementFile) : list Requirement * list str * bool :=
  parse_lines (path rf) 0 (iter_lines rf) None [] [].

(** The cache of a file is either untouched or holds what a parse pass
    over its content gives. *)
Definition consistent (rf : RequirementFile) : Prop :=
  (_requirements rf = None /\ _other_files rf = None /\ _is_valid rf = None) \/
  (_requirements rf = Some (fst (fst (parsed_fields rf))) /\
   _other_files rf = Some (snd (fst (parsed_fields rf))) /\
   _is_valid rf = Some (snd (parsed_fields rf))).

(** The requirement and what the file parser knew when it recorded it:
    the line is a declaration, parsed with its number and the index server
    then in effect, and the catalogue knows the package. *)
Definition recorded (r : Requirement) : Prop :=
  parse (line r) (lineno r) (index_server r) = Ok r /\
  package r <> None /\
  line r <> [] /\
  Py.startswith (L"#") (line r) = false /\
  is_index_directive (line r) = false /\
  is_include_directive (line r) = false /\
  is_noop_flag (line r) = false /\
  Py.isin (L"pyup: ignore") (line r) = false.

End Bundle.

(** ** A small instance of the collaborators

    Dotted numeric versions, constraints read back from their text, and a
    catalogue given by a table: enough to run the model on concrete files. *)

Module Sample.

Definition digits_value (s : str) : N :=
  fold_left (fun acc c => if Re.is_digit c
                          then (10 * acc + N.of_nat (Re.digit_val c))%N else acc) s 0%N.

(** The key of [major.minor.patch]; a version with a letter in it is a
    pre-release. *)
Definition version_key (s : str) : N * bool :=
  let parts := map digits_value (Py.split (L".") s) in
  ((nth 0 parts 0 * 1000000 + nth 1 parts 0 * 1000 + nth 2 parts 0)%N,
   existsb Re.is_ascii_letter s).

Definition is_op_char (c : ascii) : bool :=
  existsb (Ascii.eqb c) (L"=<>!~").

Fixpoint span (f : ascii -> bool) (s : str) : str * str :=
  match s with
  | c :: t => if f c then let (a, b) := span f t in (c :: a, b) else ([], s)
  | [] => ([], [])
  end.

Definition is_operator (op : str) : bool :=
  existsb (Py.str_eqb op) [L"=="; L"!="; L"<"; L"<="; L">"; L">="; L"~="].

Definition read_spec (s : str) : option spec :=
  let (op, v) := span is_op_char (Py.strip s) in
  if is_operator op && negb (length v =? 0) then Some (op, Py.strip v) else None.

Fixpoint read_specs (items : list str) : option (list spec) :=
  match items with
  | [] => Some []
  | i :: rest =>
      match read_spec i, read_specs rest with
      | Some sp, Some sps => Some (sp :: sps)
      | _, _ => None
      end
  end.

Definition read_specifier_set (s : str) : option (list spec) :=
  match s with
  | [] => Some []
  | _ => read_specs (Py.split (L",") s)
  end.

Definition satisfies (v : str) (sp : spec) : bool :=
  let a := fst (version_key v) in
  let b := fst (version_key (snd sp)) in
  let op := fst sp in
  if Py.str_eqb op (L"==") then (a =? b)%N
  else if Py.str_eqb op (L"!=") then negb (a =? b)%N
  else if Py.str_eqb op (L"<") then (a <? b)%N
  else if Py.str_eqb op (L"<=") then (a <=? b)%N
  else if Py.str_eqb op (L">") then (b <? a)%N
  else (b <=? a)%N.

Definition set_contains (ss : list spec) (v : str) (prereleases : option bool) : bool :=
  (match prereleases with Some true => true | _ => negb (snd (version_key v)) end)
  && forallb (satisfies v) ss.

Definition spec_eqb (a b : spec) : bool :=
  Py.str_eqb (fst a) (fst b) && Py.str_eqb (snd a) (snd b).

Fixpoint specs_eqb (a b : list spec) : bool :=
  match a, b with
  | [], [] => true
  | x :: a', y :: b' => spec_eqb x y && specs_eqb a' b'
  | _, _ => false
  end.

Definition hash_eqb (a b : str * list spec) : bool :=
  Py.str_eqb (fst a) (fst b) && specs_eqb (snd a) (snd b).

(** One declaration [name<constraints>], with the comment after [" #"]
    dropped. *)
Definition read_requirements (s : str) : option (list (Distribution (str * list spec))) :=
  let s := match Py.partition (L" #") s with Some (b, _) => b | None => s end in
  let s := Py.strip s in
  let (nm, rest) := span (fun c => negb (is_op_char c || Py.isspace c)) s in
  match s with
  | [] => Some []
  | _ =>
      if (length nm =? 0) || Py.startswith (L"#") nm || Py.startswith (L"-") nm then None
      else match read_specifier_set (Py.strip rest) with
           | Some sps =>
               Some [{| project_name := nm; dist_specs := sps; dist_hashCmp := (nm, sps) |}]
           | None => None
           end
  end.

Definition lib : PkgResources :=
  {| Version := N * bool;
     parse_version := version_key;
     version_lt := fun a b => (fst a <? fst b)%N;
     is_prerelease := snd;
     SpecifierSet := list spec;
     new_SpecifierSet := read_specifier_set;
     spec_contains := set_contains;
     HashCmp := str * list spec;
     hashCmp_eqb := hash_eqb;
     parse_requirements := read_requirements |}.

(** The highest version of a table row, pre-releases only on request. *)
Definition highest (vs : list str) (prereleases : bool) : option str :=
  hd_error (sorted_desc (lib := lib)
              (List.filter (fun v => prereleases || negb (snd (version_key v))) vs)).

Fixpoint lookup (table : list (str * list str)) (nm : str) : option Package :=
  match table with
  | [] => None
  | (k, vs) :: rest =>
      if Py.str_eqb k nm
      then Some {| versions := vs; latest_version_of := highest vs |}
      else lookup rest nm
  end.

(** A catalogue that knows the packages of [table], on every index. *)
Definition catalog (table : list (str * list str)) : Catalog :=
  {| fetch_package := fun nm _ => lookup table nm |}.

Definition shelf : list (str * list str) :=
  [ (L"package", [L"1.0.0"; L"1.2.0"]);
    (L"ranged", [L"2.1.0"; L"1.0.0"; L"1.4.0"; L"1.8.0"; L"1.4"]);
    (L"Django", [L"1.8"; L"1.9"]);
    (L"pywin32", [L"220"; L"221"]);
    (L"empty", []) ].






End Sample.


(** A catalogue whose packages have no known version: [versions] is empty
    and [latest_version] answers none. *)
Definition bare_catalog : Catalog :=
  {| fetch_package := fun _ _ =>
       Some {| versions := []; latest_version_of := fun _ => None |} |}.

(** Sample texts. *)
Definition include_then_ignore : str :=
  L"-r base.txt" ++ [Py.LF] ++ L"# pyup: ignore file".

Definition windows_line : str := L"pywin32==220  # installed to C:\gtk".

Definition commented_line : str := L"package==1.0.0  # comment".

Definition three_lines : str :=
  L"Django==1.8" ++ [Py.LF] ++ commented_line ++ [Py.LF] ++ L"ranged>=1.0".

Definition with_index_servers : str :=
  L"Django==1.8" ++ [Py.LF] ++
  L"-i http://pypi.local/simple" ++ [Py.LF] ++
  L"package==1.0.0" ++ [Py.LF] ++
  L"--extra-index-url http://mirror.local/ # fallback" ++ [Py.LF] ++
  L"ranged>=1.0,<2.0".

Definition two_windows_lines : str := windows_line ++ [Py.LF] ++ windows_line.

Definition three_lines_two_spaces : str :=
  L"Django==1.8" ++ [Py.LF] ++ L"package==1.2.0  # comment" ++ [Py.LF] ++ L"ranged>=1.0".

Definition shelf_catalog : Catalog := Sample.catalog Sample.shelf.

(** The requirement of [commented_line], as [Requirement.parse] builds it
    with the sample parser. *)
Definition commented_req : Requirement (lib := Sample.lib) :=
  Build_Requirement (lib := Sample.lib)
    (L"package") [(L"==", L"1.0.0")] (L"package", [(L"==", L"1.0.0")])
    commented_line 2 None.

Definition indexed_file : RequirementFile (lib := Sample.lib) :=
  new_file (L"requirements.txt") with_index_servers None.

Definition indexed_requirements : list (Requirement (lib := Sample.lib)) :=
  match _requirements (_parse (catalog := shelf_catalog) indexed_file) with
  | Some l => l
  | None => []
  end.

Definition range_specs : list spec := [(L">=", L"1.0"); (L"<", L"2.0")].

Definition range_versions : list str :=
  [L"2.1.0"; L"1.0.0"; L"1.8"; L"1.4.0"; L"1.8.0"].

Definition three_lines_updated : str :=
  L"Django==1.8" ++ [Py.LF] ++ L"package==1.2.0 # comment" ++ [Py.LF] ++ L"ranged>=1.0".

(** The requirement of a ranged line with a filter, and one for a package
    without specs that the sample catalogue does not know. *)
Definition filtered_req : Requirement (lib := Sample.lib) :=
  Build_Requirement (lib := Sample.lib)
    (L"ranged") [(L">=", L"1.0"); (L"<", L"2.0")]
    (L"ranged", [(L">=", L"1.0"); (L"<", L"2.0")])
    (L"ranged>=1.0,<2.0  # pyup: <1.5") 1 None.

Definition unknown_req : Requirement (lib := Sample.lib) :=
  Build_Requirement (lib := Sample.lib)
    (L"unknown") [] (L"unknown", []) (L"unknown") 1 None.

Definition package_entry : Package :=
  {| versions := [L"1.0.0"; L"1.2.0"];
     latest_version_of := Sample.highest [L"1.0.0"; L"1.2.0"] |}.

Definition two_files : RequirementsBundle (lib := Sample.lib) :=
  [indexed_file; new_file (L"sub/dev.txt") three_lines None].

(** The line of the filter example, its requirement, what the text of its
    filter parses to, and a catalogue for it. *)
Definition filter_line : str := L"package>=1.0,<2.0  # pyup: <1.5".

Definition filter_line_req : Requirement (lib := Sample.lib) :=
  Build_Requirement (lib := Sample.lib)
    (L"package") [(L">=", L"1.0"); (L"<", L"2.0")]
    (L"package", [(L">=", L"1.0"); (L"<", L"2.0")])
    filter_line 1 None.

Definition filter_dist : Distribution (HashCmp (PkgResources := Sample.lib)) :=
  Build_Distribution (H := HashCmp (PkgResources := Sample.lib))
    (L"filter") [(L"<", L"1.5")] (L"filter", [(L"<", L"1.5")]).

Definition range_catalog : Catalog :=
  Sample.catalog [(L"package", [L"2.1.0"; L"1.0.0"; L"1.4.0"; L"1.8.0"])].

(** Files whose index directive is not of the form [flag URL]. *)
Definition two_space_directive : str :=
  L"-i  http://pypi.local/simple" ++ [Py.LF] ++ L"Django==1.8".

Definition equals_directive : str :=
  L"-i http://pypi.local/simple" ++ [Py.LF] ++
  L"--index-url=http://mirror.local/" ++ [Py.LF] ++ L"Django==1.8".

(** * Properties *)

(** ** Strings *)

Lemma str_eqb_eq : forall a b, Py.str_eqb a b = true <-> a = b.
Proof.
  intros a b. unfold Py.str_eqb.
  destruct (list_eq_dec ascii_dec a b); split; congruence.
Qed.

Lemma str_eqb_refl : forall a, Py.str_eqb a a = true.
Proof. intros a. now apply str_eqb_eq. Qed.

Lemma str_eqb_neq : forall a b, Py.str_eqb a b = false <-> a <> b.
Proof.
  intros a b. unfold Py.str_eqb.
  destruct (list_eq_dec ascii_dec a b); split; congruence.
Qed.

Lemma endswith_app : forall p s, Py.endswith p (s ++ p) = true.
Proof.
  intros p s. unfold Py.endswith. rewrite rev_app_distr.
  induction (rev p) as [|c q IH]; simpl; [reflexivity|].
  now rewrite Ascii.eqb_refl.
Qed.

(** ** The version resolver *)

Section Resolver.

Context {lib : PkgResources} (ord : VersionOrder lib).

Let key := parse_version.

Lemma lt_asym : forall a b, version_lt a b = true -> version_lt b a = false.
Proof.
  intros a b Hab. destruct (version_lt b a) eqn:Hba; [|reflexivity].
  pose proof (lt_trans ord _ _ _ Hab Hba) as H.
  now rewrite (lt_irrefl ord) in H.
Qed.

Lemma insert_desc_head : forall x l,
    hd_error (insert_desc x l) =
    match l with
    | [] => Some x
    | y :: _ => if version_lt (key x) (key y) then Some y else Some x
    end.
Proof.
  intros x [|y ys]; simpl; [reflexivity|].
  now destruct (version_lt _ _).
Qed.

(** The head of the sorted list is the first element of greatest key: the
    elements before it in the input are strictly below it, those after it
    are not above it. *)
Lemma sorted_desc_head : forall l,
    l <> [] ->
    exists m, hd_error (sorted_desc l) = Some m /\
      exists before after, l = before ++ m :: after /\
        Forall (fun c => version_lt (key c) (key m) = true) before /\
        Forall (fun c => version_lt (key m) (key c) = false) after.
Proof.
  induction l as [|x xs IH]; [congruence|]. intros _.
  destruct xs as [|x' xs'].
  - exists x. split; [reflexivity|]. exists [], []. repeat split; constructor.
  - destruct IH as (m & Hm & before & after & Hl & Hb & Ha); [congruence|].
    change (sorted_desc (x :: x' :: xs')) with (insert_desc x (sorted_desc (x' :: xs'))).
    rewrite insert_desc_head.
    destruct (sorted_desc (x' :: xs')) as [|y ys] eqn:Hs; [discriminate|].
    simpl in Hm. injection Hm as ->.
    destruct (version_lt (key x) (key m)) eqn:Hx.
    + exists m. split; [reflexivity|].
      exists (x :: before), after. rewrite Hl. repeat split; auto.
    + exists x. split; [reflexivity|].
      exists [], (x' :: xs'). repeat split; [constructor|].
      rewrite Hl. apply Forall_app. split.
      * rewrite Forall_forall in *. intros c Hc.
        destruct (version_lt (key x) (key c)) eqn:Hxc; [|reflexivity].
        rewrite (lt_trans ord _ _ _ Hxc (Hb c Hc)) in Hx. discriminate.
      * constructor; [exact Hx|].
        rewrite Forall_forall in *. intros c Hc.
        destruct (version_lt (key x) (key c)) eqn:Hxc; [|reflexivity].
        destruct (lt_cotrans ord _ (key m) _ Hxc) as [H|H]; [congruence|].
        rewrite (Ha c Hc) in H. discriminate.
Qed.

Lemma sorted_desc_nil : forall l, sorted_desc l = [] -> l = [].
Proof.
  intros [|x xs]; [reflexivity|]. simpl.
  destruct (sorted_desc xs); simpl; [discriminate|].
  now destruct (version_lt _ _).
Qed.


End Resolver.

(** ** The anchored replacement of [update_content] *)

Lemma has_char_false : forall c s, has_char c s = false -> ~ In c s.
Proof.
  intros c s H Hin. unfold has_char in H.
  assert (existsb (Ascii.eqb c) s = true) as E.
  { apply existsb_exists. exists c. split; [assumption | apply Ascii.eqb_refl]. }
  congruence.
Qed.

Ltac eqb_cases :=
  repeat match goal with
         | |- context [Ascii.eqb ?a ?b] =>
             destruct (Ascii.eqb_spec a b); subst;
             cbn [andb orb negb Re.match_seq eol_ahead];
             try congruence; try (unfold Py.CR, Py.LF in *; congruence)
         end.

Lemma strip_prefix_app : forall p r, Re.strip_prefix p (p ++ r) = Some r.
Proof.
  induction p as [|a p IH]; intros r; simpl; [reflexivity|].
  now rewrite Ascii.eqb_refl.
Qed.

Lemma strip_prefix_some : forall p s r, Re.strip_prefix p s = Some r -> s = p ++ r.
Proof.
  induction p as [|a p IH]; intros s r H; simpl in *.
  - now injection H as ->.
  - destruct s as [|b s]; [discriminate|].
    destruct (Ascii.eqb_spec a b); [subst|discriminate].
    now rewrite (IH _ _ H).
Qed.

(** The lookahead [(?=\r?\n?$)] succeeds exactly on [eol_ahead]. *)
Lemma lookahead_eol : forall prev rest,
    match Re.match_seq [Re.Opt Py.CR; Re.Opt Py.LF; Re.Eol] prev rest with
    | Some _ => true
    | None => false
    end = eol_ahead rest.
Proof.
  intros prev rest.
  destruct rest as [|c [|d [|e t]]]; cbn [Re.match_seq eol_ahead];
    [reflexivity| | |]; eqb_cases; reflexivity.
Qed.

(** The pattern of [update_content] matches at a position exactly when the
    position starts a line, the text there starts with the line, and the
    line ends there. *)
Lemma match_at_line_regex : forall ln prev inp,
    Re.match_at (line_regex ln) prev inp =
    if at_bol prev then
      match Re.strip_prefix ln inp with
      | Some rest => if eol_ahead rest then Some (length ln) else None
      | None => None
      end
    else None.
Proof.
  intros ln prev inp. unfold Re.match_at, line_regex. cbn [Re.body Re.lookahead].
  assert (Hbody : Re.match_seq [Re.Bol; Re.Lit ln] prev inp =
                  if at_bol prev then Re.strip_prefix ln inp else None).
  { cbn [Re.match_seq]. unfold at_bol.
    destruct prev as [c|].
    - destruct (Ascii.eqb c Py.LF); [|reflexivity].
      now destruct (Re.strip_prefix ln inp).
    - now destruct (Re.strip_prefix ln inp). }
  rewrite Hbody. destruct (at_bol prev); [|reflexivity].
  destruct (Re.strip_prefix ln inp) as [rest|] eqn:Hp; [|reflexivity].
  apply strip_prefix_some in Hp. subst inp.
  rewrite length_app, Nat.add_sub.
  match goal with
  | |- context [Re.match_seq ?l ?p rest] =>
      pose proof (lookahead_eol p rest) as Hl;
      destruct (Re.match_seq l p rest)
  end; rewrite <- Hl; reflexivity.
Qed.

Lemma parse_template_fuel_plain : forall n s,
    length s <= n -> has_char "\"%char s = false ->
    Re.parse_template_fuel n s = Ok (map Re.PChar s).
Proof.
  induction n as [|n IH]; intros s Hlen Hs.
  - destruct s; [reflexivity | simpl in Hlen; lia].
  - destruct s as [|b s]; [reflexivity|].
    unfold has_char in Hs. cbn [existsb] in Hs.
    apply orb_false_elim in Hs. destruct Hs as [Hb Hs].
    cbn [Re.parse_template_fuel]. rewrite Ascii.eqb_sym, Hb. cbn [negb].
    rewrite IH; [reflexivity | simpl in Hlen; lia | exact Hs].
Qed.

(** A template without a backslash stands for itself. *)
Lemma parse_template_plain : forall s,
    has_char "\"%char s = false ->
    Re.parse_template s = Ok (map Re.PChar s).
Proof.
  intros s Hs. apply parse_template_fuel_plain; [apply Nat.le_refl | exact Hs].
Qed.

Lemma expand_plain : forall s m, Re.expand (map Re.PChar s) m = s.
Proof.
  induction s as [|c s IH]; intros m; simpl; [reflexivity|].
  now rewrite IH.
Qed.

Lemma sub_scan_0 : forall p repl prev s,
    Re.sub_scan p repl prev 0 s =
    match Re.match_at p prev s with
    | Some n =>
        repl (firstn n s) ++
        match s with
        | c :: t =>
            match n with
            | 0 => c :: Re.sub_scan p repl (Some c) 0 t
            | S k => Re.sub_scan p repl (Some c) k t
            end
        | [] => []
        end
    | None =>
        match s with
        | c :: t => c :: Re.sub_scan p repl (Some c) 0 t
        | [] => []
        end
    end.
Proof. intros p repl prev [|c t]; reflexivity. Qed.

Lemma prev_after_cons : forall x xs p, prev_after (x :: xs) p = prev_after xs (Some x).
Proof.
  intros x xs p. unfold prev_after. simpl.
  destruct (rev xs); reflexivity.
Qed.

Lemma at_bol_prev_after : forall xs p,
    at_bol p = false -> ~ In Py.LF xs -> at_bol (prev_after xs p) = false.
Proof.
  induction xs as [|x xs IH]; intros p Hp Hxs; [exact Hp|].
  rewrite prev_after_cons. apply IH.
  - simpl. apply Ascii.eqb_neq. intros ->. apply Hxs. now left.
  - intros H. apply Hxs. now right.
Qed.

Lemma lf_lines_nonempty : forall s, lf_lines s <> [].
Proof.
  induction s as [|c t IH]; simpl; [discriminate|].
  destruct (Ascii.eqb c Py.LF); [discriminate|].
  destruct (lf_lines t); discriminate.
Qed.

Lemma lf_lines_no_lf : forall s, Forall (fun seg => ~ In Py.LF seg) (lf_lines s).
Proof.
  induction s as [|c t IH]; simpl.
  - constructor; [intros [] | constructor].
  - destruct (Ascii.eqb_spec c Py.LF) as [->|Hc].
    + constructor; [intros [] | exact IH].
    + destruct (lf_lines t) as [|h r]; inversion IH; subst.
      * constructor; [|constructor]. intros [H|[]]. congruence.
      * constructor; [|assumption]. intros [H|H]; [congruence | auto].
Qed.

(** Joining the physical lines with line feeds gives the text back. *)
Lemma join_lf_lines : forall s, Py.join [Py.LF] (lf_lines s) = s.
Proof.
  induction s as [|c t IH]; [reflexivity|]. simpl.
  pose proof (lf_lines_nonempty t) as Hne.
  destruct (Ascii.eqb_spec c Py.LF) as [->|Hc].
  - destruct (lf_lines t) as [|h r] eqn:E; [congruence|].
    cbn [Py.join app]. f_equal. exact IH.
  - destruct (lf_lines t) as [|h r] eqn:E; [congruence|].
    destruct r as [|h' r']; cbn [Py.join] in *; rewrite <- IH; reflexivity.
Qed.

Lemma scan_skip_gen : forall rx repl xs p rest,
    Re.sub_scan rx repl p (length xs) (xs ++ rest) =
    Re.sub_scan rx repl (prev_after xs p) 0 rest.
Proof.
  intros rx repl. induction xs as [|x xs IH]; intros p rest; [reflexivity|].
  rewrite prev_after_cons. cbn [length app Re.sub_scan]. apply IH.
Qed.

Section Scan.

Variables (ln new : str) (repl : str -> str).
Hypothesis repl_new : forall m, repl m = new.
Hypothesis ln_nonempty : ln <> [].
Hypothesis ln_no_lf : ~ In Py.LF ln.

Let scan := Re.sub_scan (line_regex ln) repl.

Lemma scan_mid : forall p s,
    at_bol p = false ->
    scan p 0 s = match s with
                 | [] => []
                 | c :: t => c :: scan (Some c) 0 t
                 end.
Proof.
  intros p s Hp. unfold scan. rewrite sub_scan_0, match_at_line_regex, Hp.
  reflexivity.
Qed.

Lemma scan_within : forall seg p rest,
    at_bol p = false -> ~ In Py.LF seg ->
    scan p 0 (seg ++ rest) = seg ++ scan (prev_after seg p) 0 rest.
Proof.
  induction seg as [|c seg IH]; intros p rest Hp Hseg; [reflexivity|].
  rewrite scan_mid by assumption. cbn [app]. rewrite prev_after_cons. f_equal.
  apply IH.
  - simpl. apply Ascii.eqb_neq. intros ->. apply Hseg. now left.
  - intros H. apply Hseg. now right.
Qed.

Let scan_rest := scan_after ln repl.

Lemma ln_prefix_of_line : forall l seg rest r,
    ~ In Py.LF l ->
    (rest = [] \/ exists rest', rest = Py.LF :: rest') ->
    seg ++ rest = l ++ r ->
    exists seg', seg = l ++ seg' /\ r = seg' ++ rest.
Proof.
  induction l as [|a l IH]; intros seg rest r Hl Hrest E.
  - exists seg. now split.
  - destruct seg as [|b seg].
    + exfalso. destruct Hrest as [-> | [rest' ->]]; [discriminate|].
      simpl in E. injection E as <- _. apply Hl. now left.
    + simpl in E. injection E as -> E.
      destruct (IH seg rest r) as (seg' & -> & ->); auto.
      * intros H. apply Hl. now right.
      * now exists seg'.
Qed.

Lemma eol_ahead_line_end : forall rest,
    (rest = [] \/ exists rest', rest = Py.LF :: rest') ->
    eol_ahead rest = true /\ eol_ahead (Py.CR :: rest) = true.
Proof.
  intros rest [-> | [rest' ->]]; split; reflexivity.
Qed.

Lemma eol_ahead_inside : forall seg' rest,
    ~ In Py.LF seg' -> seg' <> [] -> seg' <> [Py.CR] ->
    (rest = [] \/ exists rest', rest = Py.LF :: rest') ->
    eol_ahead (seg' ++ rest) = false.
Proof.
  intros seg' rest Hlf Hne Hcr Hrest.
  destruct seg' as [|d seg'']; [congruence|].
  assert (Hd : Ascii.eqb d Py.LF = false).
  { apply Ascii.eqb_neq. intros ->. apply Hlf. now left. }
  cbn [app eol_ahead]. rewrite Hd. cbn [orb].
  destruct (Ascii.eqb_spec d Py.CR) as [->|]; [|reflexivity].
  destruct seg'' as [|e seg3]; [congruence|].
  cbn [app andb]. apply Ascii.eqb_neq. intros ->. apply Hlf. right. now left.
Qed.

Lemma scan_matched : forall p tail,
    at_bol p = true -> eol_ahead tail = true ->
    scan p 0 (ln ++ tail) = new ++ scan (prev_after ln p) 0 tail.
Proof.
  intros p tail Hp Htail. unfold scan. rewrite sub_scan_0, match_at_line_regex, Hp.
  rewrite strip_prefix_app, Htail, repl_new. f_equal.
  generalize ln_nonempty. generalize (line_regex ln). clear.
  intros rx Hne. destruct ln as [|c l]; [congruence|].
  cbn [length app]. rewrite prev_after_cons. apply scan_skip_gen.
Qed.

Lemma at_bol_after_ln : forall p, at_bol (prev_after ln p) = false.
Proof.
  intros p. generalize ln_nonempty ln_no_lf. clear.
  destruct ln as [|c l]; [congruence|]. intros _ Hlf.
  rewrite prev_after_cons. apply at_bol_prev_after.
  - simpl. apply Ascii.eqb_neq. intros ->. apply Hlf. now left.
  - intros H. apply Hlf. now right.
Qed.

(** One physical line, scanned from its start. *)
Lemma scan_line : forall seg p rest,
    at_bol p = true -> ~ In Py.LF seg ->
    (rest = [] \/ exists rest', rest = Py.LF :: rest') ->
    scan p 0 (seg ++ rest) = rewrite_line ln new seg ++ scan_rest rest.
Proof.
  intros seg p rest Hp Hseg Hrest.
  assert (Hend : forall q, at_bol q = false -> scan q 0 rest = scan_rest rest).
  { intros q Hq. now rewrite scan_mid. }
  unfold rewrite_line.
  destruct (Py.str_eqb seg ln) eqn:E1.
  - apply str_eqb_eq in E1. subst seg.
    destruct (eol_ahead_line_end Hrest) as [H1 _].
    rewrite scan_matched by assumption. f_equal.
    apply Hend. apply at_bol_after_ln.
  - destruct (Py.str_eqb seg (ln ++ [Py.CR])) eqn:E2.
    + apply str_eqb_eq in E2. subst seg.
      destruct (eol_ahead_line_end Hrest) as [_ H2].
      rewrite <- !app_assoc. cbn [app]. rewrite scan_matched by assumption.
      f_equal. rewrite scan_mid by apply at_bol_after_ln.
      f_equal. now apply Hend.
    + apply str_eqb_neq in E1. apply str_eqb_neq in E2.
      assert (Hno : Re.match_at (line_regex ln) p (seg ++ rest) = None).
      { rewrite match_at_line_regex, Hp.
        destruct (Re.strip_prefix ln (seg ++ rest)) as [r|] eqn:Hsp; [|reflexivity].
        apply strip_prefix_some in Hsp.
        destruct (@ln_prefix_of_line ln seg rest r ln_no_lf Hrest Hsp) as (seg' & -> & ->).
        rewrite eol_ahead_inside; auto.
        - intros H. apply Hseg. apply in_or_app. now right.
        - intros ->. apply E1. now rewrite app_nil_r.
        - intros ->. now apply E2. }
      unfold scan at 1. rewrite sub_scan_0, Hno. fold scan.
      destruct seg as [|c seg2].
      * reflexivity.
      * cbn [app]. f_equal.
        assert (Hc : at_bol (Some c) = false).
        { simpl. apply Ascii.eqb_neq. intros ->. apply Hseg. now left. }
        assert (Hs2 : ~ In Py.LF seg2).
        { intros H. apply Hseg. now right. }
        rewrite scan_within by assumption. f_equal.
        apply Hend. now apply at_bol_prev_after.
Qed.

(** The scan rewrites the text physical line by physical line. *)
Lemma scan_lines : forall segs p,
    segs <> [] -> Forall (fun seg => ~ In Py.LF seg) segs -> at_bol p = true ->
    scan p 0 (Py.join [Py.LF] segs) =
    Py.join [Py.LF] (map (rewrite_line ln new) segs).
Proof.
  induction segs as [|seg segs IH]; intros p Hne Hall Hp; [congruence|].
  inversion Hall as [|? ? Hseg Hall']; subst.
  destruct segs as [|seg2 segs'].
  - cbn [Py.join map]. rewrite <- (app_nil_r seg) at 1.
    rewrite scan_line; auto. apply app_nil_r.
  - change (Py.join [Py.LF] (seg :: seg2 :: segs'))
      with (seg ++ Py.LF :: Py.join [Py.LF] (seg2 :: segs')).
    rewrite scan_line; auto; [|right; eexists; reflexivity].
    unfold scan_rest, scan_after. fold scan.
    rewrite IH; auto; discriminate.
Qed.

End Scan.

(** [re.sub] with the pattern of [update_content] and a replacement that
    has no backslash rewrites the text physical line by physical line. *)
Lemma sub_line_regex_lines : forall ln new content,
    ln <> [] -> has_char Py.LF ln = false -> has_char "\"%char new = false ->
    Re.sub (line_regex ln) new content =
    Ok (Py.join [Py.LF] (map (rewrite_line ln new) (lf_lines content))).
Proof.
  intros ln new content Hne Hlf Hbs.
  unfold Re.sub. rewrite (parse_template_plain _ Hbs). cbn [bind]. f_equal.
  rewrite <- (join_lf_lines content) at 1.
  apply scan_lines.
  - apply expand_plain.
  - exact Hne.
  - now apply has_char_false.
  - apply lf_lines_nonempty.
  - apply lf_lines_no_lf.
  - reflexivity.
Qed.

Section UpdateContent.

Context {lib : PkgResources} {catalog : Catalog}.

(** For a requirement on one line whose replacement has no backslash,
    [update_content] rewrites the text physical line by physical line: the
    lines equal to the original line become the new line, the rest stay. *)
Lemma update_content_lines : forall (r : Requirement) v content,
    latest_version_within_specs r = Ok v ->
    line r <> [] -> has_char Py.LF (line r) = false ->
    has_char "\"%char (new_line r v) = false ->
    update_content r content =
    Ok (Py.join [Py.LF]
          (map (rewrite_line (line r) (new_line r v)) (lf_lines content))).
Proof.
  intros r v content Hv Hne Hlf Hbs.
  unfold update_content. rewrite Hv. cbn [bind].
  now apply sub_line_regex_lines.
Qed.

(** When no physical line is the original line, the text comes back as it
    was. *)
Lemma update_content_absent : forall (r : Requirement) v content,
    latest_version_within_specs r = Ok v ->
    line r <> [] -> has_char Py.LF (line r) = false ->
    has_char "\"%char (new_line r v) = false ->
    ~ In (line r) (lf_lines content) ->
    ~ In (line r ++ [Py.CR]) (lf_lines content) ->
    update_content r content = Ok content.
Proof.
  intros r v content Hv Hne Hlf Hbs H1 H2.
  rewrite update_content_lines with (v := v) by assumption. f_equal.
  rewrite <- (join_lf_lines content) at 2. f_equal.
  rewrite <- (map_id (lf_lines content)) at 2.
  apply map_ext_in. intros seg Hseg. unfold rewrite_line.
  destruct (Py.str_eqb seg (line r)) eqn:E1.
  { apply str_eqb_eq in E1. subst. contradiction. }
  destruct (Py.str_eqb seg (line r ++ [Py.CR])) eqn:E2.
  { apply str_eqb_eq in E2. subst. contradiction. }
  reflexivity.
Qed.

(** A replacement the template compiler refuses makes [update_content]
    raise, whatever the text is. *)
Lemma update_content_bad_template : forall (r : Requirement) v content e,
    latest_version_within_specs r = Ok v ->
    Re.parse_template (new_line r v) = Raise e ->
    update_content r content = Raise e.
Proof.
  intros r v content e Hv He.
  unfold update_content, Re.sub. rewrite Hv. cbn [bind]. now rewrite He.
Qed.

(** C3. For a requirement named [package] on the line
    [package==1.0.0  # comment] whose latest version within specs is
    [1.2.0], [update_content] returns the text in which every physical line
    equal to that line reads [package==1.2.0 # comment] (one space before
    the [#], the comment text behind it unchanged) and every other line is
    as it was. *)
Theorem update_content_pinned_with_comment :
  forall (r : Requirement) content,
    name r = L"package" ->
    line r = L"package==1.0.0  # comment" ->
    latest_version_within_specs r = Ok (Some (L"1.2.0")) ->
    update_content r content =
    Ok (Py.join [Py.LF]
          (map (rewrite_line (L"package==1.0.0  # comment")
                             (L"package==1.2.0 # comment"))
               (lf_lines content))).
Proof.
  intros r content Hname Hline Hv.
  assert (Hnew : new_line r (Some (L"1.2.0")) = L"package==1.2.0 # comment").
  { unfold new_line. rewrite Hname, Hline. reflexivity. }
  rewrite update_content_lines with (v := Some (L"1.2.0"));
    rewrite ?Hnew, ?Hline; try reflexivity; try assumption.
  discriminate.
Qed.

End UpdateContent.

(** ** Requirements against the catalogue *)

Section Decisions.

Context {lib : PkgResources}.

Lemma get_latest_of_nothing : forall specs prereleases,
    get_latest_version_within_specs specs [] prereleases = Ok None \/
    get_latest_version_within_specs specs [] prereleases = Raise InvalidSpecifier.
Proof.
  intros specs prereleases. unfold get_latest_version_within_specs.
  destruct (new_SpecifierSet (specifier_text specs)); [left | right]; reflexivity.
Qed.

Lemma pinned_or_ranged : forall (r : Requirement),
    is_pinned r || is_ranged r = negb (is_loose r).
Proof.
  intros r. unfold is_ranged, is_loose, is_pinned.
  destruct (specs r) as [|[op v] [|s2 rest]]; simpl; try reflexivity.
  now destruct (Py.str_eqb op _).
Qed.

(** C2. Against a catalogue that knows no version of any package,
    [is_outdated] raises for every requirement, and so does [needs_update]
    for every requirement that has a constraint; [needs_update] answers
    true for a requirement that has none. *)
Theorem is_outdated_raises_without_versions :
  forall (r : Requirement),
    raises (snd (is_outdated (catalog := bare_catalog) r)) /\
    match specs r with
    | [] => snd (needs_update (catalog := bare_catalog) r) = Ok true
    | _ :: _ => raises (snd (needs_update (catalog := bare_catalog) r))
    end.
Proof.
  intros r.
  assert (Hout : raises (snd (is_outdated (catalog := bare_catalog) r))).
  { unfold is_outdated, version.
    destruct (is_pinned r) eqn:Hp.
    - unfold is_pinned in Hp.
      destruct (specs r) as [|[op v] rest] eqn:Hs; [discriminate|].
      cbn [snd bind py_parse_version].
      unfold latest_version_within_specs, latest_version, package_versions, package.
      cbn [fetch_package bare_catalog versions latest_version_of bind].
      destruct (filter r) as [f|].
      + destruct (get_latest_of_nothing f (Some (prereleases r))) as [-> | ->];
          cbn [bind py_parse_version]; eexists; reflexivity.
      + cbn [bind py_parse_version]. eexists; reflexivity.
    - cbn [snd]. unfold package_versions, package.
      cbn [fetch_package bare_catalog versions bind].
      match goal with
      | |- context [get_latest_version_within_specs ?s [] ?p] =>
          destruct (get_latest_of_nothing s p) as [-> | ->]
      end; cbn [bind py_parse_version]; eexists; reflexivity. }
  split; [exact Hout|].
  pose proof (pinned_or_ranged r) as Hpr. unfold needs_update.
  rewrite Hpr. unfold is_loose.
  destruct (specs r); [reflexivity | exact Hout].
Qed.

End Decisions.

(** ** The parse pass *)

Section ParsePass.

Context {lib : PkgResources} {catalog : Catalog}.

(** The marker on the first line: nothing is recorded. *)
Lemma ignore_marker_on_first_line : forall pth raw rest,
    Py.isin (L"pyup: ignore file") (Py.strip raw) = true ->
    parse_lines pth 0 (raw :: rest) None [] [] = ([], [], false).
Proof.
  intros pth raw rest H. cbn [parse_lines].
  destruct (Py.strip raw) as [|c s]; [discriminate|].
  rewrite H. reflexivity.
Qed.

(** The marker on the first or second line ends the pass there, with
    the lists as they are and [_is_valid] false. *)
Lemma marker_line_stops : forall pth num raw rest idx reqs files,
    Py.isin (L"pyup: ignore file") (Py.strip raw) = true ->
    (num =? 0) || (num =? 1) = true ->
    parse_lines pth num (raw :: rest) idx reqs files = (reqs, files, false).
Proof.
  intros pth num raw rest idx reqs files H Hnum. cbn [parse_lines].
  destruct (Py.strip raw) as [|c s]; [discriminate|].
  rewrite H, Hnum. reflexivity.
Qed.

(** The marker on the second line: whatever the first line is, the file
    is not valid. *)
Lemma ignore_marker_on_second_line_invalid : forall pth l0 l1 rest,
    Py.isin (L"pyup: ignore file") (Py.strip l1) = true ->
    snd (parse_lines pth 0 (l0 :: l1 :: rest) None [] []) = false.
Proof.
  intros pth l0 l1 rest H.
  assert (Hnext : forall idx reqs files,
             snd (parse_lines pth 1 (l1 :: rest) idx reqs files) = false).
  { intros idx reqs files. now rewrite marker_line_stops. }
  remember (l1 :: rest) as tail eqn:Etail. clear Etail H.
  cbn [parse_lines].
  destruct (Py.strip l0) as [|c s]; [apply Hnext|].
  repeat match goal with
         | |- context [if ?b then _ else _] => destruct b
         end; try apply Hnext; try reflexivity.
  destruct (parse _ _ _) as [req|e]; [|apply Hnext].
  destruct (package req); apply Hnext.
Qed.

(** C4. In a file whose first line includes another file and whose second
    line carries the marker [pyup: ignore file], the parse pass ends at the
    marker with [is_valid] false, and the file of the first line stays in
    [other_files]. *)
Theorem ignore_marker_on_second_line :
  let rf := new_file (L"requirements.txt") include_then_ignore None in
  snd (is_valid rf) = Some false /\
  snd (other_files rf) = Some [L"base.txt"] /\
  snd (requirements rf) = Some [].
Proof. repeat split. Qed.

Lemma parse_sets_is_valid : forall rf, exists b, _is_valid (_parse rf) = Some b.
Proof.
  intros rf. unfold _parse.
  destruct (parse_lines (path rf) 0 (iter_lines rf) None [] []) as [[reqs files] valid].
  now exists valid.
Qed.

(** [is_valid] tells a parsed file by [None], so it parses once. *)
Lemma is_valid_parses_once : forall rf,
    parse_passes (fst (is_valid (fst (is_valid rf)))) = parse_passes (fst (is_valid rf)).
Proof.
  intros rf. unfold is_valid.
  destruct (_is_valid rf) eqn:E; cbn [fst].
  - now rewrite E.
  - destruct (parse_sets_is_valid rf) as [b ->]. reflexivity.
Qed.

(** [requirements] and [other_files] tell a parsed file by a non-empty
    list, so a file parsed to an empty list is parsed again. *)
Lemma other_files_parses_again : forall rf,
    _other_files rf = Some [] ->
    parse_passes (fst (other_files rf)) = S (parse_passes rf).
Proof.
  intros rf H. unfold other_files. rewrite H. cbn [py_not fst].
  unfold _parse.
  destruct (parse_lines (path rf) 0 (iter_lines rf) None [] []) as [[reqs files] valid].
  reflexivity.
Qed.

Lemma requirements_parses_again : forall rf,
    _requirements rf = Some [] ->
    parse_passes (fst (requirements rf)) = S (parse_passes rf).
Proof.
  intros rf H. unfold requirements. rewrite H. cbn [py_not fst].
  unfold _parse.
  destruct (parse_lines (path rf) 0 (iter_lines rf) None [] []) as [[reqs files] valid].
  reflexivity.
Qed.

(** C6. A file that only includes another file has no requirement: the
    first read of [requirements] runs the parse pass, and the second read
    runs it again. *)
Theorem requirements_reparsed_when_empty :
  let rf0 := new_file (L"requirements.txt") (L"-r base.txt") None in
  let rf1 := fst (requirements rf0) in
  let rf2 := fst (requirements rf1) in
  parse_passes rf1 = 1 /\ _requirements rf1 = Some [] /\
  _other_files rf1 = Some [L"base.txt"] /\ parse_passes rf2 = 2.
Proof. repeat split. Qed.

(** The filter is read from the line, so the answer does not depend on the
    specs of the requirement beyond the pre-release flag. *)
Lemma latest_version_within_specs_own_specs : forall (r : Requirement) s,
    filter r <> None ->
    prereleases (set_specs r s) = prereleases r ->
    latest_version_within_specs (set_specs r s) = latest_version_within_specs r.
Proof.
  intros r s Hf Hp. unfold latest_version_within_specs.
  change (filter (set_specs r s)) with (filter r).
  destruct (filter r); [|congruence].
  now rewrite Hp.
Qed.

End ParsePass.

(** ** Index servers *)

Section IndexServers.

Context {lib : PkgResources} {catalog : Catalog}.

Lemma parse_fields : forall s n i (r : Requirement),
    parse s n i = Ok r -> line r = s /\ lineno r = n /\ index_server r = i.
Proof.
  intros s n i r. unfold parse.
  destruct (if Py.isin _ s then _ else _) as [parsed|e]; cbn [bind]; [|discriminate].
  intros H. injection H as <-. repeat split.
Qed.

(** The URL of an index directive ends with a slash. *)
Lemma parse_index_server_slash : forall l, slash_ended (parse_index_server l).
Proof.
  intros l. unfold parse_index_server.
  destruct (Py.split _ _) as [|a [|u rest]]; try exact I.
  cbn [slash_ended].
  destruct (Py.endswith (L"/") (Py.strip u)) eqn:E; [exact E|].
  apply endswith_app.
Qed.

Lemma index_in_effect_slash : forall lines k, slash_ended (index_in_effect lines k).
Proof.
  intros lines k. unfold index_in_effect.
  assert (forall l acc, slash_ended acc ->
            slash_ended (fold_left (fun cur raw =>
                           if is_index_directive (Py.strip raw)
                           then parse_index_server (Py.strip raw) else cur) l acc)) as H.
  { induction l as [|x l IH]; intros acc Hacc; [exact Hacc|].
    cbn [fold_left]. apply IH.
    destruct (is_index_directive _); [apply parse_index_server_slash | exact Hacc]. }
  apply H. exact I.
Qed.

Lemma firstn_prefix : forall (pre rest : list str),
    firstn (length pre) (pre ++ rest) = pre.
Proof.
  intros pre rest. rewrite firstn_app, Nat.sub_diag, firstn_all.
  cbn [firstn]. apply app_nil_r.
Qed.

Lemma index_in_effect_step : forall pre raw rest,
    index_in_effect (pre ++ raw :: rest) (S (length pre)) =
    if is_index_directive (Py.strip raw)
    then parse_index_server (Py.strip raw)
    else index_in_effect (pre ++ raw :: rest) (length pre).
Proof.
  intros pre raw rest. unfold index_in_effect.
  rewrite firstn_prefix.
  replace (pre ++ raw :: rest) with ((pre ++ [raw]) ++ rest)
    by (rewrite <- app_assoc; reflexivity).
  replace (S (length pre)) with (length (pre ++ [raw]))
    by (rewrite length_app; simpl; lia).
  rewrite firstn_prefix, fold_left_app. reflexivity.
Qed.

Lemma comment_is_no_directive : forall l,
    Py.startswith (L"#") l = true -> is_index_directive l = false.
Proof.
  intros [|c l]; [discriminate|]. cbn [Py.startswith list_ascii_of_string].
  destruct (Ascii.eqb_spec "#"%char c) as [<-|]; [|discriminate].
  reflexivity.
Qed.

Lemma parse_lines_placed : forall rest all pre pth idx reqs files,
    all = pre ++ rest ->
    idx = index_in_effect all (length pre) ->
    Forall (placed all) reqs ->
    Forall (placed all) (fst (fst (parse_lines pth (length pre) rest idx reqs files))).
Proof.
  induction rest as [|raw rest IH]; intros all pre pth idx reqs files Hall Hidx Hreqs.
  - exact Hreqs.
  - assert (Hcont : forall idx' reqs' files',
               idx' = index_in_effect all (S (length pre)) ->
               Forall (placed all) reqs' ->
               Forall (placed all)
                 (fst (fst (parse_lines pth (S (length pre)) rest idx' reqs' files')))).
    { intros idx' reqs' files' Hi Hr.
      replace (S (length pre)) with (length (pre ++ [raw])) in *
        by (rewrite length_app; simpl; lia).
      apply IH; auto. rewrite Hall, <- app_assoc. reflexivity. }
    pose proof (index_in_effect_step pre raw rest) as Hstep. rewrite <- Hall in Hstep.
    cbn [parse_lines].
    destruct (Py.strip raw) as [|c s] eqn:Hstrip.
    { apply Hcont; auto. rewrite Hstep. exact Hidx. }
    rewrite <- Hstrip in *. clear Hstrip.
    destruct (Py.isin (L"pyup: ignore file") (Py.strip raw) &&
              ((length pre =? 0) || (length pre =? 1))); [exact Hreqs|].
    destruct (Py.startswith (L"#") (Py.strip raw)) eqn:Hcomment.
    { apply Hcont; auto. rewrite Hstep, (comment_is_no_directive _ Hcomment). exact Hidx. }
    destruct (is_index_directive (Py.strip raw)) eqn:Hdir.
    { apply Hcont; auto. }
    assert (Hsame : idx = index_in_effect all (S (length pre))).
    { rewrite Hstep. exact Hidx. }
    destruct (is_include_directive (Py.strip raw)); [now apply Hcont|].
    destruct (is_noop_flag (Py.strip raw)); [now apply Hcont|].
    destruct (Py.isin (L"pyup: ignore") (Py.strip raw)); [now apply Hcont|].
    destruct (parse (Py.strip raw) (length pre + 1) idx) as [req|e] eqn:Hparse;
      [|now apply Hcont].
    destruct (package req); [|now apply Hcont].
    apply Hcont; auto. apply Forall_app. split; [exact Hreqs|].
    constructor; [|constructor].
    apply parse_fields in Hparse. destruct Hparse as (Hl & Hn & Hi).
    unfold placed. rewrite Hl, Hn, Hi.
    replace (length pre + 1 - 1) with (length pre) by lia.
    repeat split.
    + lia.
    + rewrite Hall, length_app. simpl. lia.
    + rewrite Hall, nth_middle. reflexivity.
    + exact Hidx.
    + rewrite Hidx. apply index_in_effect_slash.
Qed.

(** The index server in effect is that of the last directive: lines that
    are no index directive leave it as it is. *)
Lemma index_in_effect_last : forall pre raw mid,
    is_index_directive (Py.strip raw) = true ->
    Forall (fun l => is_index_directive (Py.strip l) = false) mid ->
    forall rest,
      index_in_effect (pre ++ raw :: mid ++ rest) (length pre + 1 + length mid) =
      parse_index_server (Py.strip raw).
Proof.
  intros pre raw mid Hraw Hmid rest. unfold index_in_effect.
  replace (pre ++ raw :: mid ++ rest) with ((pre ++ raw :: mid) ++ rest)
    by (rewrite <- app_assoc; reflexivity).
  replace (length pre + 1 + length mid) with (length (pre ++ raw :: mid))
    by (rewrite length_app; simpl; lia).
  rewrite firstn_prefix, fold_left_app. cbn [fold_left]. rewrite Hraw.
  generalize (parse_index_server (Py.strip raw)) as acc.
  induction Hmid as [|l mid Hl Hmid IH]; intros acc; [reflexivity|].
  cbn [fold_left]. rewrite Hl. apply IH.
Qed.

Lemma index_in_effect_none : forall lines k,
    Forall (fun l => is_index_directive (Py.strip l) = false) (firstn k lines) ->
    index_in_effect lines k = None.
Proof.
  intros lines k. unfold index_in_effect.
  generalize (firstn k lines) as l. intros l H.
  induction H as [|x l Hx Hl IH]; [reflexivity|].
  cbn [fold_left]. rewrite Hx. exact IH.
Qed.

End IndexServers.

(** ** Equality of requirements *)

Section Equality.

Context {lib : PkgResources}.

Lemma parse_distribution : forall s n i (r : Requirement),
    parse s n i = Ok r ->
    exists src d, parse_requirements src = Some [d] /\
                  hashCmp r = dist_hashCmp d /\ specs r = dist_specs d /\
                  src = (if Py.isin (Py.TAB :: L"#") s
                         then Py.replace (Py.TAB :: L"#") (Py.TAB :: L" #") s
                         else s).
Proof.
  intros s n i r. unfold parse.
  set (src := if Py.isin _ s then Py.replace _ _ s else s).
  assert (Hsrc : (if Py.isin (Py.TAB :: L"#") s
                  then parse_one (Py.replace (Py.TAB :: L"#") (Py.TAB :: L" #") s)
                  else parse_one s) = parse_one src).
  { unfold src. now destruct (Py.isin _ s). }
  rewrite Hsrc. unfold parse_one.
  destruct (parse_requirements src) as [[|d [|d' l]]|] eqn:E; cbn [bind]; try discriminate.
  intros H. injection H as <-. exists src, d. repeat split. exact E.
Qed.

End Equality.

(** ** The sample collaborators obey the laws *)

Lemma sample_version_order : VersionOrder Sample.lib.
Proof.
  constructor; cbn [version_lt Sample.lib].
  - intros a. apply N.ltb_irrefl.
  - intros a b c H1 H2. apply N.ltb_lt in H1, H2. apply N.ltb_lt. lia.
  - intros a b c H. apply N.ltb_lt in H.
    destruct (N.ltb_spec (fst a) (fst b)); [now left|].
    right. apply N.ltb_lt. lia.
Qed.




Lemma read_requirements_hash : forall s d,
    Sample.read_requirements s = Some [d] ->
    dist_hashCmp d = (project_name d, dist_specs d).
Proof.
  intros s d. unfold Sample.read_requirements.
  destruct (Sample.span _ _) as [nm rest].
  destruct (Py.strip _); [discriminate|].
  destruct (_ || _); [discriminate|].
  destruct (Sample.read_specifier_set _); [|discriminate].
  intros H. injection H as <-. reflexivity.
Qed.

(** ** Runs on the sample collaborators *)

(** The filter of the line [ranged>=1.0,<2.0  # pyup: <1.5] decides: the
    answer is [1.4.0], although [1.8.0] is within the specs of the line. *)
Example filter_governs_ceiling :
  exists r : Requirement,
    parse (lib := Sample.lib) (L"ranged>=1.0,<2.0  # pyup: <1.5") 1 None = Ok r /\
    filter r = Some [(L"<", L"1.5")] /\
    latest_version_within_specs (catalog := shelf_catalog) r = Ok (Some (L"1.4.0")) /\
    get_latest_version_within_specs (lib := Sample.lib) (specs r)
      [L"2.1.0"; L"1.0.0"; L"1.4.0"; L"1.8.0"; L"1.4"] (Some false) = Ok (Some (L"1.8.0")).
Proof. eexists. repeat split. Qed.

Example index_servers_by_line :
  map (fun r => (lineno r, index_server r)) indexed_requirements =
  [ (1, None);
    (3, Some (L"http://pypi.local/simple/"));
    (5, Some (L"http://mirror.local/")) ].
Proof. reflexivity. Qed.

(** With a requirement on the first line and the marker on the second, the
    requirement stays recorded. *)
Example ignore_marker_after_requirement :
  let rf := new_file (lib := Sample.lib) (L"requirements.txt")
              (L"Django==1.8" ++ [Py.LF] ++ L"# pyup: ignore file") None in
  snd (is_valid (catalog := shelf_catalog) rf) = Some false /\
  option_map (map (fun r => line r)) (snd (requirements (catalog := shelf_catalog) rf))
  = Some [L"Django==1.8"].
Proof. split; reflexivity. Qed.

(** [version] extends the specs of a requirement that has a filter and is
    not pinned, each time it is read. *)
Example version_extends_specs :
  exists r : Requirement,
    parse (lib := Sample.lib) (L"ranged>=1.0,<2.0  # pyup: <1.5") 1 None = Ok r /\
    specs r = [(L">=", L"1.0"); (L"<", L"2.0")] /\
    specs (fst (version (catalog := shelf_catalog) r))
    = [(L">=", L"1.0"); (L"<", L"2.0"); (L"<", L"1.5")] /\
    specs (fst (version (catalog := shelf_catalog)
                  (fst (version (catalog := shelf_catalog) r))))
    = [(L">=", L"1.0"); (L"<", L"2.0"); (L"<", L"1.5"); (L"<", L"1.5")].
Proof. eexists. repeat split. Qed.

(** A requirement that is not pinned and whose package has no versions. *)
Example is_outdated_type_error :
  exists r : Requirement,
    parse (lib := Sample.lib) (L"empty>=1.0") 1 None = Ok r /\
    fst (version (catalog := shelf_catalog) r) = r /\
    snd (version (catalog := shelf_catalog) r) = Ok None /\
    snd (is_outdated (catalog := shelf_catalog) r) = Raise TypeError /\
    snd (needs_update (catalog := shelf_catalog) r) = Raise TypeError.
Proof. eexists. repeat split. Qed.


(** C3: the claim as stated fails, the line is written with one space
    before the [#]. *)
Lemma update_content_two_spaces_refuted :
  parse (lib := Sample.lib) commented_line 2 None = Ok commented_req /\
  latest_version_within_specs (catalog := shelf_catalog) commented_req
  = Ok (Some (L"1.2.0")) /\
  In commented_line (lf_lines three_lines) /\
  update_content (catalog := shelf_catalog) commented_req three_lines
  <> Ok three_lines_two_spaces.
Proof.
  repeat split; try reflexivity.
  - right. left. reflexivity.
  - intros H. vm_compute in H. discriminate H.
Qed.

(** C3, on the sample. *)
Lemma update_content_pinned_with_comment_witness :
  name commented_req = L"package" /\
  line commented_req = L"package==1.0.0  # comment" /\
  latest_version_within_specs (catalog := shelf_catalog) commented_req
  = Ok (Some (L"1.2.0")) /\
  update_content (catalog := shelf_catalog) commented_req three_lines =
  Ok (Py.join [Py.LF]
        (map (rewrite_line (L"package==1.0.0  # comment") (L"package==1.2.0 # comment"))
             (lf_lines three_lines))).
Proof.
  split; [reflexivity|]. split; [reflexivity|]. split; [reflexivity|].
  apply update_content_pinned_with_comment; reflexivity.
Defined.

(** C9. A requirement whose comment holds [C:\gtk], and a text that does
    not contain its line: [update_content] raises, the replacement is no
    valid template. *)
Theorem update_content_stale_backslash :
  exists r : Requirement,
    parse (lib := Sample.lib) windows_line 1 None = Ok r /\
    ~ In (line r) (lf_lines three_lines) /\
    ~ In (line r ++ [Py.CR]) (lf_lines three_lines) /\
    latest_version_within_specs (catalog := shelf_catalog) r = Ok (Some (L"221")) /\
    update_content (catalog := shelf_catalog) r three_lines = Raise ReError.
Proof.
  eexists. split; [reflexivity|]. repeat split.
  - intros H. vm_compute in H. repeat (destruct H as [H|H]; [discriminate H|]). exact H.
  - intros H. vm_compute in H. repeat (destruct H as [H|H]; [discriminate H|]). exact H.
Qed.

(** C10. The same requirement and a text that holds its line twice:
    [update_content] raises and replaces neither. *)
Theorem update_content_twice_backslash :
  exists r : Requirement,
    parse (lib := Sample.lib) windows_line 1 None = Ok r /\
    lf_lines two_windows_lines = [line r; line r] /\
    latest_version_within_specs (catalog := shelf_catalog) r = Ok (Some (L"221")) /\
    update_content (catalog := shelf_catalog) r two_windows_lines = Raise ReError.
Proof. eexists. repeat split. Qed.

(** * Further properties *)

(** ** Splitting and joining *)

Lemma has_char_app : forall c a b, has_char c (a ++ b) = has_char c a || has_char c b.
Proof. intros c a b. apply existsb_app. Qed.

Lemma has_char_cons : forall c x s,
    has_char c (x :: s) = Ascii.eqb c x || has_char c s.
Proof. reflexivity. Qed.

Lemma isin_char : forall c s, Py.isin [c] s = has_char c s.
Proof.
  induction s as [|x s IH]; [reflexivity|].
  cbn [Py.isin Py.startswith]. rewrite IH, has_char_cons, andb_true_r. reflexivity.
Qed.

Lemma startswith_length : forall p s, Py.startswith p s = true -> length p <= length s.
Proof.
  induction p as [|a p IH]; intros [|b s] H; simpl in *; try lia; try discriminate.
  apply andb_true_iff in H. destruct H as [_ H]. apply IH in H. lia.
Qed.

Lemma startswith_skipn : forall p s,
    Py.startswith p s = true -> s = p ++ skipn (length p) s.
Proof.
  induction p as [|a p IH]; intros [|b s] H; simpl in *; try reflexivity; try discriminate.
  apply andb_true_iff in H. destruct H as [Hab H].
  apply Ascii.eqb_eq in Hab. subst. f_equal. now apply IH.
Qed.

Lemma startswith_app : forall p s, Py.startswith p (p ++ s) = true.
Proof.
  induction p as [|a p IH]; intros s; simpl; [reflexivity|].
  now rewrite Ascii.eqb_refl, IH.
Qed.

(** What [partition] finds is the text around the separator. *)
Lemma partition_some : forall sep s b a,
    Py.partition sep s = Some (b, a) -> s = b ++ sep ++ a.
Proof.
  intros sep. induction s as [|c t IH]; intros b a H; cbn [Py.partition] in H.
  - destruct (Py.startswith sep []) eqn:E; [|discriminate].
    injection H as <- <-. now apply startswith_skipn.
  - destruct (Py.startswith sep (c :: t)) eqn:E.
    + injection H as <- <-. now apply startswith_skipn.
    + destruct (Py.partition sep t) as [[b' a']|]; [|discriminate].
      injection H as <- <-. cbn [app]. f_equal. now apply IH.
Qed.

Lemma partition_shorter : forall sep s b a,
    sep <> [] -> Py.partition sep s = Some (b, a) -> length a < length s.
Proof.
  intros sep s b a Hsep H. apply partition_some in H. subst s.
  rewrite !length_app. destruct sep; [congruence|]. simpl. lia.
Qed.

Lemma partition_none : forall sep s,
    Py.isin sep s = false -> Py.partition sep s = None.
Proof.
  intros sep. induction s as [|c t IH]; intros H; cbn [Py.isin Py.partition] in *;
    apply orb_false_elim in H; destruct H as [H1 H2]; rewrite H1; [reflexivity|].
  now rewrite IH.
Qed.

Lemma partition_first : forall c a b,
    has_char c a = false -> Py.partition [c] (a ++ c :: b) = Some (a, b).
Proof.
  intros c. induction a as [|x a IH]; intros b H.
  - cbn [app Py.partition Py.startswith]. now rewrite Ascii.eqb_refl.
  - rewrite has_char_cons in H. apply orb_false_elim in H. destruct H as [Hx H].
    cbn [app Py.partition Py.startswith]. rewrite Hx. cbn [andb].
    now rewrite IH.
Qed.

Lemma split_fuel_enough : forall sep n m s,
    sep <> [] -> length s <= n -> length s <= m ->
    Py.split_fuel n sep s = Py.split_fuel m sep s.
Proof.
  intros sep n. induction n as [|n IH]; intros m s Hsep Hn Hm.
  - destruct s; [|simpl in Hn; lia].
    destruct m; cbn [Py.split_fuel]; [reflexivity|].
    destruct (Py.partition sep []) as [[b a]|] eqn:E; [|reflexivity].
    apply partition_shorter in E; [simpl in E; lia | assumption].
  - destruct m as [|m].
    + destruct s; [|simpl in Hm; lia].
      cbn [Py.split_fuel].
      destruct (Py.partition sep []) as [[b a]|] eqn:E; [|reflexivity].
      apply partition_shorter in E; [simpl in E; lia | assumption].
    + cbn [Py.split_fuel].
      destruct (Py.partition sep s) as [[b a]|] eqn:E; [|reflexivity].
      pose proof (partition_shorter _ Hsep E). f_equal. apply IH; auto; lia.
Qed.

(** [s.split(sep)] on a text without the separator. *)
Lemma split_absent : forall sep s, Py.isin sep s = false -> Py.split sep s = [s].
Proof.
  intros sep s H. unfold Py.split.
  destruct (length s); cbn [Py.split_fuel]; [reflexivity|].
  now rewrite partition_none.
Qed.

(** [s.split(c)] at the first [c]. *)
Lemma split_first : forall c a b,
    has_char c a = false ->
    Py.split [c] (a ++ c :: b) = a :: Py.split [c] b.
Proof.
  intros c a b H. unfold Py.split.
  rewrite length_app. cbn [length]. rewrite Nat.add_succ_r.
  cbn [Py.split_fuel]. rewrite partition_first by assumption. f_equal.
  apply split_fuel_enough; [discriminate | lia | lia].
Qed.

Lemma split_fuel_nonempty : forall n sep s, Py.split_fuel n sep s <> [].
Proof.
  intros [|n] sep s; cbn [Py.split_fuel]; [discriminate|].
  destruct (Py.partition sep s) as [[b a]|]; discriminate.
Qed.

(** [sep.join(s.split(sep))] is [s]. *)
Lemma join_split_fuel : forall n sep s, Py.join sep (Py.split_fuel n sep s) = s.
Proof.
  induction n as [|n IH]; intros sep s; cbn [Py.split_fuel]; [reflexivity|].
  destruct (Py.partition sep s) as [[b a]|] eqn:E; [|reflexivity].
  pose proof (split_fuel_nonempty n sep a) as Hne.
  specialize (IH sep a).
  destruct (Py.split_fuel n sep a) as [|p ps]; [congruence|].
  change (Py.join sep (b :: p :: ps)) with (b ++ sep ++ Py.join sep (p :: ps)).
  rewrite IH. symmetry. now apply partition_some.
Qed.

Lemma join_split : forall sep s, Py.join sep (Py.split sep s) = s.
Proof. intros sep s. apply join_split_fuel. Qed.

Lemma first_occurrence : forall c s,
    has_char c s = true ->
    exists a b, s = a ++ c :: b /\ has_char c a = false.
Proof.
  intros c. induction s as [|x s IH]; intros H; [discriminate|].
  rewrite has_char_cons in H.
  destruct (Ascii.eqb_spec c x) as [<-|Hx].
  - exists [], s. now split.
  - cbn [orb] in H. destruct (IH H) as (a & b & -> & Ha).
    exists (x :: a), b. split; [reflexivity|].
    rewrite has_char_cons, Ha.
    destruct (Ascii.eqb_spec c x); [congruence | reflexivity].
Qed.

Lemma split_char_absent : forall c s, has_char c s = false -> Py.split [c] s = [s].
Proof. intros c s H. apply split_absent. now rewrite isin_char. Qed.

(** [s.split(c)] at the last [c]. *)
Lemma split_last : forall c b a,
    has_char c b = false ->
    Py.split [c] (a ++ c :: b) = Py.split [c] a ++ [b].
Proof.
  intros c b a Hb. remember (length a) as n eqn:Hn.
  revert a Hn. induction n as [n IH] using lt_wf_ind. intros a Hn.
  destruct (has_char c a) eqn:Ha.
  - destruct (first_occurrence _ _ Ha) as (a1 & a2 & -> & Ha1).
    rewrite <- app_assoc. cbn [app].
    rewrite split_first with (a := a1) (b := a2 ++ c :: b) by assumption.
    rewrite split_first with (a := a1) (b := a2) by assumption.
    cbn [app]. f_equal.
    apply (IH (length a2)); [|reflexivity].
    subst n. rewrite length_app. simpl. lia.
  - rewrite split_first by assumption.
    now rewrite !split_char_absent.
Qed.

(** The first piece of a split is a prefix of the text. *)
Lemma split_head_prefix : forall sep s,
    exists rest, s = nth 0 (Py.split sep s) [] ++ rest.
Proof.
  intros sep s. pose proof (join_split sep s) as H.
  unfold Py.split in *.
  pose proof (split_fuel_nonempty (length s) sep s) as Hne.
  destruct (Py.split_fuel (length s) sep s) as [|p [|q ps]]; [congruence| |].
  - exists []. cbn [nth Py.join] in *. now rewrite app_nil_r.
  - exists (sep ++ Py.join sep (q :: ps)). cbn [nth]. now rewrite <- H.
Qed.

Lemma partition_prefix : forall sep s, Py.partition sep (sep ++ s) = Some ([], s).
Proof.
  intros sep s.
  assert (Hskip : skipn (length sep) (sep ++ s) = s).
  { rewrite skipn_app, skipn_all, Nat.sub_diag. reflexivity. }
  assert (Hunfold : forall t,
             Py.startswith sep t = true ->
             Py.partition sep t = Some ([], skipn (length sep) t)).
  { intros [|c t] Ht; cbn [Py.partition]; now rewrite Ht. }
  rewrite Hunfold by apply startswith_app. now rewrite Hskip.
Qed.

(** [(old + s).replace(old, "")] is [s] when [old] is not in [s]. *)
Lemma replace_prefix : forall old s,
    old <> [] -> Py.isin old s = false -> Py.replace old [] (old ++ s) = s.
Proof.
  intros old s Hold H. unfold Py.replace, Py.split.
  destruct (length (old ++ s)) as [|n] eqn:E.
  { rewrite length_app in E. destruct old; [congruence | simpl in E; lia]. }
  cbn [Py.split_fuel]. rewrite partition_prefix.
  replace (Py.split_fuel n old s) with [s]; [reflexivity|].
  destruct n; cbn [Py.split_fuel]; [reflexivity|].
  now rewrite partition_none.
Qed.

Lemma replace_absent : forall old new s,
    Py.isin old s = false -> Py.replace old new s = s.
Proof.
  intros old new s H. unfold Py.replace. now rewrite split_absent.
Qed.

(** ** Paths and index servers *)

Section Directives.

Context {lib : PkgResources}.

(** X1. A file in a directory resolves an included file into the same
    directory: the directory part of the path, up to its last slash, is put
    before what the file name alone would give. *)
Theorem resolve_file_in_directory : forall dir base ln,
    has_char "/"%char base = false ->
    resolve_file (dir ++ L"/" ++ base) ln = dir ++ L"/" ++ resolve_file base ln.
Proof.
  intros dir base ln Hbase. unfold resolve_file.
  change (L"/") with ["/"%char]. cbn [app].
  rewrite split_last by assumption.
  rewrite (split_char_absent _ _ Hbase). cbn [length Nat.eqb].
  rewrite length_app. cbn [length]. rewrite Nat.add_1_r.
  pose proof (split_fuel_nonempty (length dir) ["/"%char] dir) as Hne.
  fold (Py.split ["/"%char] dir) in Hne.
  destruct (Py.split ["/"%char] dir) as [|p ps] eqn:E; [congruence|].
  cbn [length Nat.eqb]. rewrite <- E, removelast_last, join_split.
  reflexivity.
Qed.

(** X2. For a file outside any directory, the include lines [-r name] and
    [--requirement name] resolve to [name], when the name holds neither
    flag nor the start of a comment. *)
Theorem resolve_file_target : forall base nm,
    has_char "/"%char base = false ->
    Py.isin (L"-r ") nm = false ->
    Py.isin (L"--requirement ") nm = false ->
    Py.isin (L" #") nm = false ->
    resolve_file base (L"-r " ++ nm) = nm /\
    resolve_file base (L"--requirement " ++ nm) = nm.
Proof.
  intros base nm Hbase H1 H2 H3.
  assert (Hparts : (length (Py.split (L"/") base) =? 1) = true).
  { change (L"/") with ["/"%char]. now rewrite split_char_absent. }
  split; unfold resolve_file; rewrite Hparts.
  - rewrite replace_prefix by (assumption || discriminate).
    rewrite replace_absent by assumption. now rewrite H3.
  - rewrite replace_absent with (old := L"-r ").
    + rewrite replace_prefix by (assumption || discriminate). now rewrite H3.
    + cbn. exact H1.
Qed.

(** X3. An index directive [flag url], alone or followed by a comment,
    gives the URL, with a slash added when it does not end with one. *)
Theorem parse_index_server_url : forall flag url,
    has_char " "%char flag = false -> has_char "#"%char flag = false ->
    has_char " "%char url = false -> has_char "#"%char url = false ->
    Py.strip url = url ->
    let normal := if Py.endswith (L"/") url then url else url ++ L"/" in
    parse_index_server (flag ++ L" " ++ url) = Some normal /\
    forall comment,
      parse_index_server (flag ++ L" " ++ url ++ L" #" ++ comment) = Some normal.
Proof.
  intros flag url Hf1 Hf2 Hu1 Hu2 Hstrip normal.
  assert (Hfields : forall tail,
             tail = [] \/ tail = [[]] ->
             match flag :: url :: tail with
             | _ :: u :: _ =>
                 Some (if Py.endswith (L"/") (Py.strip u)
                       then Py.strip u else Py.strip u ++ L"/")
             | _ => None
             end = Some normal).
  { intros tail _. cbn. now rewrite Hstrip. }
  split.
  - unfold parse_index_server. change (L"#") with ["#"%char].
    change (L" ") with [" "%char]. cbn [app].
    rewrite split_char_absent with (c := "#"%char).
    2:{ rewrite has_char_app, has_char_cons, Hf2, Hu2. reflexivity. }
    cbn [nth]. rewrite split_first by assumption.
    rewrite split_char_absent by assumption. apply (Hfields []). now left.
  - intros comment. unfold parse_index_server.
    change (L"#") with ["#"%char]. change (L" ") with [" "%char].
    change (L" #") with [" "%char; "#"%char]. cbn [app].
    replace (flag ++ " "%char :: url ++ " "%char :: "#"%char :: comment)
      with ((flag ++ " "%char :: url ++ [" "%char]) ++ "#"%char :: comment)
      by (rewrite <- !app_assoc; cbn [app]; rewrite <- app_assoc; reflexivity).
    rewrite split_first with (c := "#"%char).
    2:{ rewrite has_char_app, has_char_cons, has_char_app, Hf2, Hu2. reflexivity. }
    cbn [nth]. rewrite split_first by assumption.
    rewrite (split_first " "%char url []) by assumption.
    apply (Hfields [[]]). now right.
Qed.

(** X4. An index directive without a space, such as [--index-url=URL],
    gives no index server. *)
Theorem parse_index_server_without_space : forall ln,
    has_char " "%char ln = false -> parse_index_server ln = None.
Proof.
  intros ln H. unfold parse_index_server.
  destruct (split_head_prefix (L"#") ln) as [rest Hrest].
  rewrite Hrest, has_char_app in H. apply orb_false_elim in H. destruct H as [H _].
  change (L" ") with [" "%char]. now rewrite split_char_absent.
Qed.

(** X5. When two spaces follow the flag of an index directive, the URL is
    read as empty and the index server is ["/"]. *)
Theorem parse_index_server_two_spaces : forall flag rest,
    has_char " "%char flag = false -> has_char "#"%char flag = false ->
    parse_index_server (flag ++ L"  " ++ rest) = Some (L"/").
Proof.
  intros flag rest Hf1 Hf2. unfold parse_index_server.
  change (L"  ") with [" "%char; " "%char]. cbn [app].
  assert (Hhead : exists r0,
             nth 0 (Py.split (L"#") (flag ++ " "%char :: " "%char :: rest)) []
             = flag ++ " "%char :: " "%char :: r0).
  { change (L"#") with ["#"%char].
    destruct (has_char "#"%char rest) eqn:Hr.
    - destruct (first_occurrence _ _ Hr) as (r0 & r1 & -> & Hr0).
      exists r0.
      replace (flag ++ " "%char :: " "%char :: r0 ++ "#"%char :: r1)
        with ((flag ++ " "%char :: " "%char :: r0) ++ "#"%char :: r1)
        by (rewrite <- app_assoc; reflexivity).
      rewrite split_first; [reflexivity|].
      rewrite has_char_app, !has_char_cons, Hf2, Hr0. reflexivity.
    - exists rest. rewrite split_char_absent; [reflexivity|].
      rewrite has_char_app, !has_char_cons, Hf2, Hr. reflexivity. }
  destruct Hhead as [r0 ->].
  change (L" ") with [" "%char].
  rewrite split_first by assumption.
  pose proof (@split_first " "%char [] r0 eq_refl) as Hs. cbn [app] in Hs.
  rewrite Hs. reflexivity.
Qed.

End Directives.

Section NewLine.

Context {lib : PkgResources}.

(** X6. The line [update_content] writes for a line with a comment is the
    name, [==], the version, one space, and the original line from its
    first [#] on, unchanged, however many [#] the comment holds. *)
Theorem new_line_keeps_comment : forall (r : Requirement) v code comment,
    line r = code ++ "#"%char :: comment ->
    has_char "#"%char code = false ->
    new_line r v = name r ++ L"==" ++ Py.format_opt v ++ L" #" ++ comment.
Proof.
  intros r v code comment Hline Hcode. unfold new_line. rewrite Hline.
  change (L"#") with ["#"%char].
  rewrite isin_char, has_char_app, has_char_cons, Ascii.eqb_refl, orb_true_r.
  rewrite split_first by assumption. cbn [tl].
  rewrite join_split, <- !app_assoc. reflexivity.
Qed.

End NewLine.

(** ** Rewriting a file, line by line *)

Lemma lf_lines_single : forall seg, ~ In Py.LF seg -> lf_lines seg = [seg].
Proof.
  induction seg as [|c seg IH]; intros H; [reflexivity|]. cbn [lf_lines].
  destruct (Ascii.eqb_spec c Py.LF) as [->|_]; [exfalso; apply H; now left|].
  rewrite IH; [reflexivity|]. intros Hin. apply H. now right.
Qed.

Lemma lf_lines_app : forall seg rest,
    ~ In Py.LF seg -> lf_lines (seg ++ Py.LF :: rest) = seg :: lf_lines rest.
Proof.
  induction seg as [|c seg IH]; intros rest H; cbn [app lf_lines].
  - now rewrite Ascii.eqb_refl.
  - destruct (Ascii.eqb_spec c Py.LF) as [->|_]; [exfalso; apply H; now left|].
    rewrite IH; [reflexivity|]. intros Hin. apply H. now right.
Qed.

(** Splitting at line feeds undoes joining with line feeds. *)
Lemma lf_lines_join : forall segs,
    segs <> [] -> Forall (fun seg => ~ In Py.LF seg) segs ->
    lf_lines (Py.join [Py.LF] segs) = segs.
Proof.
  induction segs as [|seg segs IH]; intros Hne Hall; [congruence|].
  inversion Hall as [|? ? Hseg Hall']; subst.
  destruct segs as [|seg2 segs'].
  - cbn [Py.join]. now apply lf_lines_single.
  - change (Py.join [Py.LF] (seg :: seg2 :: segs'))
      with (seg ++ Py.LF :: Py.join [Py.LF] (seg2 :: segs')).
    rewrite lf_lines_app by assumption. f_equal. apply IH; [discriminate | assumption].
Qed.

Lemma rewrite_line_no_lf : forall ln new seg,
    ~ In Py.LF new -> ~ In Py.LF seg -> ~ In Py.LF (rewrite_line ln new seg).
Proof.
  intros ln new seg Hnew Hseg. unfold rewrite_line.
  destruct (Py.str_eqb seg ln); [assumption|].
  destruct (Py.str_eqb seg (ln ++ [Py.CR])); [|assumption].
  intros H. apply in_app_or in H. destruct H as [H|[H|[]]]; [auto | discriminate].
Qed.

Lemma no_cr_differs : forall a b, has_char Py.CR a = false -> a <> b ++ [Py.CR].
Proof.
  intros a b Ha ->. rewrite has_char_app in Ha.
  apply orb_false_elim in Ha. destruct Ha as [_ Ha]. discriminate.
Qed.

(** Rewriting a rewritten line changes nothing, as long as neither the
    line nor its replacement holds a carriage return. *)
Lemma rewrite_line_idem : forall ln new seg,
    has_char Py.CR ln = false -> has_char Py.CR new = false ->
    rewrite_line ln new (rewrite_line ln new seg) = rewrite_line ln new seg.
Proof.
  intros ln new seg Hln Hnew. unfold rewrite_line at 2 3.
  destruct (Py.str_eqb seg ln) eqn:E1.
  - unfold rewrite_line. destruct (Py.str_eqb new ln) eqn:E; [reflexivity|].
    destruct (Py.str_eqb new (ln ++ [Py.CR])) eqn:E'; [|reflexivity].
    apply str_eqb_eq in E'. now apply no_cr_differs in E'.
  - destruct (Py.str_eqb seg (ln ++ [Py.CR])) eqn:E2.
    + unfold rewrite_line.
      destruct (Py.str_eqb (new ++ [Py.CR]) ln) eqn:E.
      { apply str_eqb_eq in E. symmetry in E. now apply no_cr_differs in E. }
      destruct (Py.str_eqb (new ++ [Py.CR]) (ln ++ [Py.CR])) eqn:E'; [|reflexivity].
      reflexivity.
    + unfold rewrite_line. now rewrite E1, E2.
Qed.

Section Rewriting.

Context {lib : PkgResources} {catalog : Catalog}.

Lemma update_content_out_lines : forall (r : Requirement) v content,
    latest_version_within_specs r = Ok v ->
    line r <> [] -> has_char Py.LF (line r) = false ->
    has_char "\"%char (new_line r v) = false ->
    has_char Py.LF (new_line r v) = false ->
    exists out,
      update_content r content = Ok out /\
      lf_lines out = map (rewrite_line (line r) (new_line r v)) (lf_lines content).
Proof.
  intros r v content Hv Hne Hlf Hbs Hnl.
  eexists. split; [apply update_content_lines with (v := v); assumption|].
  apply lf_lines_join.
  - pose proof (lf_lines_nonempty content).
    destruct (lf_lines content); [congruence | discriminate].
  - apply Forall_map. eapply Forall_impl; [|apply lf_lines_no_lf].
    intros seg Hseg. apply rewrite_line_no_lf; [|assumption].
    now apply has_char_false.
Qed.

(** X7. When the replacement holds no backslash and no physical line of
    the text is the original line, alone or before a carriage return,
    [update_content] returns the text as it is. *)
Theorem update_content_without_line : forall (r : Requirement) v content,
    latest_version_within_specs r = Ok v ->
    line r <> [] -> has_char Py.LF (line r) = false ->
    has_char "\"%char (new_line r v) = false ->
    ~ In (line r) (lf_lines content) ->
    ~ In (line r ++ [Py.CR]) (lf_lines content) ->
    update_content r content = Ok content.
Proof.
  intros r v content Hv Hne Hlf Hbs H1 H2.
  now apply update_content_absent with (v := v).
Qed.

(** X8. When the replacement holds no backslash and no line feed,
    [update_content] returns a text with as many physical lines as it was
    given: each line equal to the original line is the new line, each line
    equal to it before a carriage return is the new line before a carriage
    return, and every other line is as it was. *)
Theorem update_content_line_by_line : forall (r : Requirement) v content,
    latest_version_within_specs r = Ok v ->
    line r <> [] -> has_char Py.LF (line r) = false ->
    has_char "\"%char (new_line r v) = false ->
    has_char Py.LF (new_line r v) = false ->
    exists out,
      update_content r content = Ok out /\
      lf_lines out = map (rewrite_line (line r) (new_line r v)) (lf_lines content).
Proof.
  intros r v content Hv Hne Hlf Hbs Hnl.
  now apply update_content_out_lines.
Qed.

(** X9. [update_content] is idempotent: applied to its own result it
    returns that result, when the original line and the replacement hold
    no carriage return and the replacement no backslash and no line
    feed. *)
Theorem update_content_idempotent : forall (r : Requirement) v content out,
    latest_version_within_specs r = Ok v ->
    line r <> [] -> has_char Py.LF (line r) = false ->
    has_char Py.CR (line r) = false ->
    has_char "\"%char (new_line r v) = false ->
    has_char Py.LF (new_line r v) = false ->
    has_char Py.CR (new_line r v) = false ->
    update_content r content = Ok out ->
    update_content r out = Ok out.
Proof.
  intros r v content out Hv Hne Hlf Hcr Hbs Hnl Hncr Hout.
  destruct (update_content_out_lines r content Hv Hne Hlf Hbs Hnl)
    as (out' & Hout' & Hlines).
  rewrite Hout in Hout'. injection Hout' as <-.
  rewrite update_content_lines with (v := v) by assumption. f_equal.
  rewrite Hlines, map_map.
  rewrite <- (join_lf_lines out) at 1. rewrite Hlines. f_equal.
  apply map_ext. intros seg. now apply rewrite_line_idem.
Qed.

End Rewriting.

(** ** The order of the candidates *)

Section CandidateOrder.

Context {lib : PkgResources} (ord : VersionOrder lib).

Lemma sorted_desc_head_max : forall l,
    l <> [] ->
    exists m, hd_error (sorted_desc l) = Some m /\ In m l /\
              forall c, In c l -> version_lt (parse_version m) (parse_version c) = false.
Proof.
  intros l Hne.
  destruct (sorted_desc_head ord Hne) as (m & Hm & before & after & Hl & Hb & Ha).
  exists m. split; [exact Hm|]. split.
  - rewrite Hl. apply in_or_app. right. now left.
  - intros c Hc. rewrite Hl in Hc. apply in_app_or in Hc.
    destruct Hc as [Hc | [<- | Hc]].
    + rewrite Forall_forall in Hb. apply (lt_asym ord). now apply Hb.
    + apply (lt_irrefl ord).
    + rewrite Forall_forall in Ha. now apply Ha.
Qed.

Lemma filter_same_members : forall (f : str -> bool) l l',
    (forall v, In v l <-> In v l') ->
    forall v, In v (List.filter f l) <-> In v (List.filter f l').
Proof.
  intros f l l' H v. rewrite !filter_In, H. reflexivity.
Qed.

(** X10. The precedence of the version returned does not depend on the
    order of the candidates or on how often each occurs: two lists with the
    same members give versions of equal precedence, or both none, or the
    same error. *)
Theorem get_latest_version_within_specs_any_order :
  forall specs versions versions' prereleases,
    (forall v, In v versions <-> In v versions') ->
    match get_latest_version_within_specs specs versions prereleases,
          get_latest_version_within_specs specs versions' prereleases with
    | Ok (Some m), Ok (Some m') =>
        version_lt (parse_version m) (parse_version m') = false /\
        version_lt (parse_version m') (parse_version m) = false
    | Ok None, Ok None => True
    | Raise e, Raise e' => e = e'
    | _, _ => False
    end.
Proof.
  intros specs versions versions' prereleases Hsame.
  unfold get_latest_version_within_specs.
  destruct (new_SpecifierSet (specifier_text specs)) as [ss|]; [|reflexivity].
  set (sat := fun version => spec_contains ss version prereleases).
  pose proof (filter_same_members sat _ _ Hsame) as Hf.
  destruct (List.filter sat versions) as [|a l] eqn:E;
    destruct (List.filter sat versions') as [|a' l'] eqn:E'.
  - exact I.
  - exfalso. apply (in_nil (a := a')). apply Hf. now left.
  - exfalso. apply (in_nil (a := a)). apply Hf. now left.
  - destruct (@sorted_desc_head_max (a :: l)) as (m & Hm & Hin & Hmax); [discriminate|].
    destruct (@sorted_desc_head_max (a' :: l')) as (m' & Hm' & Hin' & Hmax');
      [discriminate|].
    destruct (sorted_desc (a :: l)) as [|x xs]; [discriminate|].
    destruct (sorted_desc (a' :: l')) as [|x' xs']; [discriminate|].
    cbn [hd_error] in Hm, Hm'. injection Hm as ->. injection Hm' as ->.
    split.
    + apply Hmax. now apply Hf.
    + apply Hmax'. now apply Hf.
Qed.

End CandidateOrder.

(** ** Deciding on an update *)

Section Verdicts.

Context {lib : PkgResources} {catalog : Catalog}.

(** X11. Every requirement is of exactly one kind: pinned, ranged or
    loose; it is loose exactly when it has no spec. *)
Theorem requirement_kinds : forall (r : Requirement),
    ((is_pinned r = true /\ is_ranged r = false /\ is_loose r = false) \/
     (is_pinned r = false /\ is_ranged r = true /\ is_loose r = false) \/
     (is_pinned r = false /\ is_ranged r = false /\ is_loose r = true)) /\
    (is_loose r = true <-> specs r = []).
Proof.
  intros r. unfold is_ranged, is_loose, is_pinned.
  destruct (specs r) as [|[op v] [|s2 rest]]; cbn [length Nat.leb Nat.eqb andb negb].
  - split; [right; right; auto | split; auto].
  - split; [|split; discriminate].
    destruct (Py.str_eqb op (L"==")); [left | right; left]; auto.
  - split; [right; left; auto | split; discriminate].
Qed.

(** X12. A requirement without specs needs an update whatever the
    catalogue says, also when the catalogue does not know the package; the
    requirement is left as it is. *)
Theorem needs_update_loose : forall (r : Requirement),
    specs r = [] -> needs_update r = (r, Ok true).
Proof.
  intros r H. unfold needs_update, is_pinned, is_ranged. now rewrite H.
Qed.

Lemma filter_specs_nonempty : forall (r : Requirement) f,
    filter r = Some f -> f <> [].
Proof.
  intros r f. unfold filter.
  match goal with
  | |- match ?x with _ => _ end = _ -> _ => destruct x as [[|c d]|]
  end; try discriminate.
  destruct (parse_one _) as [parsed|]; [|discriminate].
  destruct (dist_specs parsed) as [|s l] eqn:E; cbn [length Nat.ltb Nat.leb];
    [discriminate|].
  intros H. injection H as <-. discriminate.
Qed.

(** X13. A requirement pinned to [v] that has no filter, for a package
    whose latest version is [lv], is outdated exactly when [v] precedes
    [lv]; the catalogue is not asked for the list of versions and the
    requirement is left as it is.  Pinned to the latest version, it is not
    outdated. *)
Theorem is_outdated_pinned :
  VersionOrder lib ->
  forall (r : Requirement) v p lv,
    specs r = [(L"==", v)] ->
    filter r = None ->
    package r = Some p ->
    latest_version_of p (prereleases r) = Some lv ->
    is_outdated r = (r, Ok (version_lt (parse_version v) (parse_version lv))) /\
    (lv = v -> is_outdated r = (r, Ok false)).
Proof.
  intros ord r v p lv Hs Hf Hp Hl.
  assert (H : is_outdated r =
              (r, Ok (version_lt (parse_version v) (parse_version lv)))).
  { unfold is_outdated, version, is_pinned. rewrite Hs.
    cbn [Py.str_eqb]. rewrite str_eqb_refl. cbn [bind py_parse_version].
    unfold latest_version_within_specs, latest_version. rewrite Hf, Hp, Hl.
    reflexivity. }
  split; [exact H|]. intros ->. rewrite H. now rewrite (lt_irrefl ord).
Qed.

(** X14. Each read of [version] on a ranged requirement with a filter
    appends the specs of the filter to the specs of the requirement once
    more: after [n] reads the specs are the original ones followed by [n]
    copies of the filter's. *)
Theorem version_appends_filter : forall (r : Requirement) f n,
    is_ranged r = true ->
    filter r = Some f ->
    specs (Nat.iter n (fun x => fst (version x)) r)
    = specs r ++ concat (repeat f n).
Proof.
  intros r f n Hr Hf.
  assert (Hf_ne : f <> []) by (eapply filter_specs_nonempty; eassumption).
  assert (Hinv : forall k,
             let rk := Nat.iter k (fun x => fst (version x)) r in
             line rk = line r /\ is_pinned rk = false /\
             specs rk = specs r ++ concat (repeat f k)).
  { induction k as [|k IH]; cbn zeta in *.
    - repeat split.
      + unfold is_ranged in Hr. apply andb_true_iff in Hr. destruct Hr as [_ Hr].
        now apply negb_true_iff.
      + cbn [repeat concat]. now rewrite app_nil_r.
    - cbn [Nat.iter nat_rect]. fold (Nat.iter k (fun x => fst (version x)) r).
      set (rk := Nat.iter k (fun x => fst (version x)) r) in *.
      destruct IH as (Hline & Hpin & Hspecs).
      assert (Hfk : filter rk = Some f).
      { unfold filter in *. rewrite Hline. exact Hf. }
      unfold version. rewrite Hpin, Hfk. cbn [fst set_specs line specs].
      split; [exact Hline|]. split.
      + unfold is_pinned. cbn [specs]. rewrite Hspecs.
        unfold is_ranged in Hr. apply andb_true_iff in Hr. destruct Hr as [Hlen _].
        apply Nat.leb_le in Hlen.
        destruct (specs r) as [|s0 l0]; [simpl in Hlen; lia|].
        destruct f as [|f0 fl]; [congruence|].
        cbn [app]. destruct l0; destruct (concat (repeat (f0 :: fl) k));
          destruct s0; reflexivity.
      + rewrite Hspecs, <- app_assoc. f_equal.
        clear. induction k as [|k IH]; cbn [repeat concat].
        * now rewrite app_nil_r.
        * rewrite <- app_assoc, IH. reflexivity. }
  apply Hinv.
Qed.

End Verdicts.

(** ** What a parse pass records *)

Section Recorded.

Context {lib : PkgResources} {catalog : Catalog}.

Ltac branches :=
  repeat match goal with
         | |- context [if ?b then _ else _] => destruct b eqn:?
         end.

Lemma parse_lines_recorded : forall rest pth num idx reqs files,
    Forall recorded reqs ->
    Forall recorded (fst (fst (parse_lines pth num rest idx reqs files))).
Proof.
  induction rest as [|raw rest IH]; intros pth num idx reqs files Hreqs; [exact Hreqs|].
  cbn [parse_lines].
  destruct (Py.strip raw) as [|c s] eqn:Hstrip; [now apply IH|].
  rewrite <- Hstrip. assert (Hne : Py.strip raw <> []) by (rewrite Hstrip; discriminate).
  clear Hstrip.
  destruct (Py.isin (L"pyup: ignore file") (Py.strip raw) && ((num =? 0) || (num =? 1)));
    [exact Hreqs|].
  destruct (Py.startswith (L"#") (Py.strip raw)) eqn:H1; [now apply IH|].
  destruct (is_index_directive (Py.strip raw)) eqn:H2; [now apply IH|].
  destruct (is_include_directive (Py.strip raw)) eqn:H3; [now apply IH|].
  destruct (is_noop_flag (Py.strip raw)) eqn:H4; [now apply IH|].
  destruct (Py.isin (L"pyup: ignore") (Py.strip raw)) eqn:H5; [now apply IH|].
  destruct (parse (Py.strip raw) (num + 1) idx) as [req|e] eqn:Hparse; [|now apply IH].
  destruct (package req) eqn:Hpkg; [|now apply IH].
  apply IH. apply Forall_app. split; [exact Hreqs|].
  constructor; [|constructor].
  destruct (parse_fields _ _ _ Hparse) as (Hl & Hn & Hi).
  unfold recorded. rewrite Hl, Hn, Hi, Hpkg. repeat split; auto. discriminate.
Qed.

(** X15. Every requirement a parse pass records is what
    [Requirement.parse] gives for its own line, line number and index
    server; the catalogue knows its package; and its line is not blank, no
    comment, no index, include or no-op directive, and carries no
    [pyup: ignore]. *)
Theorem recorded_requirements : forall (rf : RequirementFile) reqs (r : Requirement),
    _requirements (_parse rf) = Some reqs ->
    In r reqs ->
    parse (line r) (lineno r) (index_server r) = Ok r /\
    package r <> None /\
    line r <> [] /\
    Py.startswith (L"#") (line r) = false /\
    is_index_directive (line r) = false /\
    is_include_directive (line r) = false /\
    is_noop_flag (line r) = false /\
    Py.isin (L"pyup: ignore") (line r) = false.
Proof.
  intros rf reqs r Hparse Hin.
  pose proof (parse_lines_recorded (iter_lines rf) (path rf) 0 None (reqs := [])
                [] (Forall_nil _)) as H.
  unfold _parse in Hparse.
  destruct (parse_lines (path rf) 0 (iter_lines rf) None [] []) as [[rs fs] valid].
  cbn [_requirements] in Hparse. injection Hparse as <-.
  cbn [fst] in H. rewrite Forall_forall in H. exact (H r Hin).
Qed.

Lemma strongly_sorted_snoc : forall (R : Requirement -> Requirement -> Prop) l x,
    StronglySorted R l -> Forall (fun y => R y x) l -> StronglySorted R (l ++ [x]).
Proof.
  intros R l x Hs Hall. induction Hs as [|a l Hs IH Ha]; cbn [app].
  - constructor; constructor.
  - inversion Hall; subst. constructor; [now apply IH|].
    apply Forall_app. split; [assumption | constructor; [assumption | constructor]].
Qed.

Lemma parse_lines_ascending : forall rest pth num idx reqs files,
    StronglySorted (fun a b => lineno a < lineno b) reqs ->
    Forall (fun r => lineno r <= num) reqs ->
    StronglySorted (fun a b => lineno a < lineno b)
                   (fst (fst (parse_lines pth num rest idx reqs files))).
Proof.
  induction rest as [|raw rest IH]; intros pth num idx reqs files Hs Hle; [exact Hs|].
  assert (Hle' : Forall (fun r => lineno r <= S num) reqs).
  { eapply Forall_impl; [|exact Hle]. cbn. intros; lia. }
  cbn [parse_lines].
  destruct (Py.strip raw) as [|c s]; [now apply IH|].
  branches; try exact Hs; try (now apply IH).
  destruct (parse _ _ _) as [req|e] eqn:Hparse; [|now apply IH].
  destruct (package req); [|now apply IH].
  destruct (parse_fields _ _ _ Hparse) as (_ & Hn & _).
  apply IH.
  - apply strongly_sorted_snoc; [exact Hs|].
    eapply Forall_impl; [|exact Hle]. cbn. intros; lia.
  - apply Forall_app. split; [exact Hle'|]. constructor; [lia | constructor].
Qed.

(** X16. The requirements a parse pass records are in the order of their
    lines: line numbers strictly increase along the list, so no line gives
    two requirements. *)
Theorem requirements_in_line_order : forall (rf : RequirementFile) reqs,
    _requirements (_parse rf) = Some reqs ->
    StronglySorted (fun a b => lineno a < lineno b) reqs.
Proof.
  intros rf reqs Hparse.
  pose proof (parse_lines_ascending (iter_lines rf) (path rf) (num := 0) None []
                (SSorted_nil _) (Forall_nil _)) as H.
  unfold _parse in Hparse.
  destruct (parse_lines (path rf) 0 (iter_lines rf) None [] []) as [[rs fs] valid].
  cbn [_requirements] in Hparse. injection Hparse as <-. exact H.
Qed.

Lemma parse_lines_valid : forall rest pth num idx reqs files,
    snd (parse_lines pth num rest idx reqs files) = true ->
    fst (fst (parse_lines pth num rest idx reqs files)) <> [] \/
    snd (fst (parse_lines pth num rest idx reqs files)) <> [].
Proof.
  induction rest as [|raw rest IH]; intros pth num idx reqs files.
  - cbn [parse_lines fst snd]. intros H.
    destruct reqs; [|left; discriminate]. destruct files; [|right; discriminate].
    discriminate.
  - cbn [parse_lines].
    destruct (Py.strip raw) as [|c s]; [apply IH|].
    branches; try apply IH; try (cbn [snd]; discriminate).
    destruct (parse _ _ _) as [req|e]; [|apply IH].
    destruct (package req); apply IH.
Qed.

(** X17. A file is valid only if its parse pass recorded a requirement or
    an included file. *)
Theorem valid_file_has_entries : forall pth text sha_,
    snd (is_valid (new_file pth text sha_)) = Some true ->
    snd (requirements (new_file pth text sha_)) <> Some [] \/
    snd (other_files (new_file pth text sha_)) <> Some [].
Proof.
  intros pth text sha_.
  unfold is_valid, requirements, other_files, new_file, _parse, iter_lines.
  cbn [_is_valid _requirements _other_files py_not path content snd].
  pose proof (parse_lines_valid (Py.splitlines text) pth 0 None [] []) as H.
  destruct (parse_lines pth 0 (Py.splitlines text) None [] []) as [[rs fs] valid].
  cbn [fst snd _is_valid _requirements _other_files] in *.
  intros Hv. injection Hv as ->.
  destruct (H eq_refl) as [Hr | Hf]; [left | right]; congruence.
Qed.

Lemma parse_lines_no_marker : forall rest pth num idx reqs files,
    Forall (fun raw => Py.isin (L"pyup: ignore file") (Py.strip raw) = false)
           (firstn (2 - num) rest) ->
    snd (parse_lines pth num rest idx reqs files) =
    (0 <? length (fst (fst (parse_lines pth num rest idx reqs files)))) ||
    (0 <? length (snd (fst (parse_lines pth num rest idx reqs files)))).
Proof.
  induction rest as [|raw rest IH]; intros pth num idx reqs files Hm; [reflexivity|].
  assert (Hm' : Forall (fun raw => Py.isin (L"pyup: ignore file") (Py.strip raw) = false)
                       (firstn (2 - S num) rest)).
  { destruct num as [|[|num]]; cbn [Nat.sub firstn] in *;
      try (inversion Hm; subst; assumption); constructor. }
  assert (Hraw : Py.isin (L"pyup: ignore file") (Py.strip raw) &&
                 ((num =? 0) || (num =? 1)) = false).
  { destruct num as [|[|num]]; cbn [Nat.sub firstn Nat.eqb orb] in *;
      try (inversion Hm; subst; rewrite H1; reflexivity).
    apply andb_false_r. }
  cbn [parse_lines].
  destruct (Py.strip raw) as [|c s]; [now apply IH|].
  rewrite Hraw.
  branches; try (now apply IH).
  destruct (parse _ _ _) as [req|e]; [|now apply IH].
  destruct (package req); now apply IH.
Qed.

(** X18. When neither of the first two lines carries [pyup: ignore file],
    a file is valid exactly when its parse pass recorded a requirement or
    an included file. *)
Theorem valid_iff_entries : forall (rf : RequirementFile) reqs files valid,
    Forall (fun raw => Py.isin (L"pyup: ignore file") (Py.strip raw) = false)
           (firstn 2 (iter_lines rf)) ->
    _requirements (_parse rf) = Some reqs ->
    _other_files (_parse rf) = Some files ->
    _is_valid (_parse rf) = Some valid ->
    (valid = true <-> reqs <> [] \/ files <> []).
Proof.
  intros rf reqs files valid Hm Hr Hf Hv.
  pose proof (parse_lines_no_marker (iter_lines rf) (path rf) 0 None [] [] Hm) as H.
  unfold _parse in *.
  destruct (parse_lines (path rf) 0 (iter_lines rf) None [] []) as [[rs fs] vd].
  cbn [_requirements _other_files _is_valid fst snd] in *.
  injection Hr as <-. injection Hf as <-. injection Hv as <-. rewrite H.
  destruct rs, fs; cbn; (split; [intros Hv | intros [Hv | Hv]]);
    try discriminate; try reflexivity; try congruence;
    try (left; discriminate); try (right; discriminate).
Qed.

End Recorded.

(** ** Reading a file and a bundle *)

Section Reading.

Context {lib : PkgResources} {catalog : Catalog}.

Lemma parse_keeps_source : forall rf,
    path (_parse rf) = path rf /\ content (_parse rf) = content rf /\
    sha (_parse rf) = sha rf.
Proof.
  intros rf. unfold _parse.
  destruct (parse_lines (path rf) 0 (iter_lines rf) None [] []) as [[reqs files] valid].
  repeat split.
Qed.

Lemma parsed_fields_parse : forall rf, parsed_fields (_parse rf) = parsed_fields rf.
Proof.
  intros rf. unfold parsed_fields, iter_lines.
  destruct (parse_keeps_source rf) as (-> & -> & _). reflexivity.
Qed.

Lemma parse_fills_cache : forall rf,
    _requirements (_parse rf) = Some (fst (fst (parsed_fields rf))) /\
    _other_files (_parse rf) = Some (snd (fst (parsed_fields rf))) /\
    _is_valid (_parse rf) = Some (snd (parsed_fields rf)).
Proof.
  intros rf. unfold _parse, parsed_fields.
  destruct (parse_lines (path rf) 0 (iter_lines rf) None [] []) as [[reqs files] valid].
  repeat split.
Qed.

Lemma consistent_parse : forall rf, consistent (_parse rf).
Proof.
  intros rf. right. rewrite parsed_fields_parse. apply parse_fills_cache.
Qed.

Lemma requirements_consistent : forall rf,
    consistent rf ->
    snd (requirements rf) = Some (fst (fst (parsed_fields rf))) /\
    consistent (fst (requirements rf)) /\
    parsed_fields (fst (requirements rf)) = parsed_fields rf.
Proof.
  intros rf Hc. unfold requirements. cbn [fst snd].
  destruct (py_not (_requirements rf)) eqn:E.
  - split; [apply parse_fills_cache|]. split; [apply consistent_parse|].
    apply parsed_fields_parse.
  - destruct Hc as [(H & _) | (H & H2 & H3)].
    + rewrite H in E. discriminate.
    + split; [exact H|]. split; [right; auto | reflexivity].
Qed.

Lemma other_files_consistent : forall rf,
    consistent rf ->
    snd (other_files rf) = Some (snd (fst (parsed_fields rf))) /\
    consistent (fst (other_files rf)) /\
    parsed_fields (fst (other_files rf)) = parsed_fields rf.
Proof.
  intros rf Hc. unfold other_files. cbn [fst snd].
  destruct (py_not (_other_files rf)) eqn:E.
  - split; [apply parse_fills_cache|]. split; [apply consistent_parse|].
    apply parsed_fields_parse.
  - destruct Hc as [(_ & H & _) | (H1 & H & H3)].
    + rewrite H in E. discriminate.
    + split; [exact H|]. split; [right; auto | reflexivity].
Qed.

Lemma is_valid_consistent : forall rf,
    consistent rf ->
    snd (is_valid rf) = Some (snd (parsed_fields rf)) /\
    consistent (fst (is_valid rf)) /\
    parsed_fields (fst (is_valid rf)) = parsed_fields rf.
Proof.
  intros rf Hc. unfold is_valid. cbn [fst snd].
  destruct (_is_valid rf) eqn:E; cbn [fst snd].
  - destruct Hc as [(_ & _ & H) | (H1 & H2 & H)].
    + rewrite H in E. discriminate.
    + split; [exact H|]. split; [right; auto | reflexivity].
  - split; [apply parse_fills_cache|]. split; [apply consistent_parse|].
    apply parsed_fields_parse.
Qed.

(** X19. On a file whose cache is untouched or filled by a parse pass,
    each of the three accessors returns its part of what one parse pass
    over the content gives, and leaves the file in such a state, with the
    same parse result: the answers do not depend on which accessor is read
    first or how often. *)
Theorem accessors_agree_with_parse : forall rf,
    consistent rf ->
    (snd (requirements rf) = Some (fst (fst (parsed_fields rf))) /\
     consistent (fst (requirements rf)) /\
     parsed_fields (fst (requirements rf)) = parsed_fields rf) /\
    (snd (other_files rf) = Some (snd (fst (parsed_fields rf))) /\
     consistent (fst (other_files rf)) /\
     parsed_fields (fst (other_files rf)) = parsed_fields rf) /\
    (snd (is_valid rf) = Some (snd (parsed_fields rf)) /\
     consistent (fst (is_valid rf)) /\
     parsed_fields (fst (is_valid rf)) = parsed_fields rf).
Proof.
  intros rf Hc. split; [|split].
  - now apply requirements_consistent.
  - now apply other_files_consistent.
  - now apply is_valid_consistent.
Qed.

Lemma is_valid_fixed : forall rf b, _is_valid rf = Some b -> fst (is_valid rf) = rf.
Proof. intros rf b H. unfold is_valid. now rewrite H. Qed.

(** X20. However often [is_valid] is read, the parse pass runs at most
    once: the reads after the first leave the file as the first left it. *)
Theorem is_valid_parses_at_most_once : forall rf n,
    Nat.iter n (fun f => fst (is_valid f)) (fst (is_valid rf)) = fst (is_valid rf) /\
    parse_passes (fst (is_valid rf)) <= S (parse_passes rf).
Proof.
  intros rf n.
  assert (Hset : exists b, _is_valid (fst (is_valid rf)) = Some b).
  { unfold is_valid. destruct (_is_valid rf) as [b|] eqn:E; cbn [fst].
    - now exists b.
    - pose proof (parse_fills_cache rf) as (_ & _ & H). eauto. }
  destruct Hset as [b Hb]. split.
  - induction n as [|n IH]; [reflexivity|].
    cbn [Nat.iter nat_rect]. fold (Nat.iter n (fun f => fst (is_valid f)) (fst (is_valid rf))).
    rewrite IH. now apply is_valid_fixed with (b := b).
  - unfold is_valid. destruct (_is_valid rf); cbn [fst]; [lia|].
    unfold _parse.
    destruct (parse_lines (path rf) 0 (iter_lines rf) None [] []) as [[reqs files] valid].
    cbn [parse_passes]. lia.
Qed.

Lemma bundle_requirements_concat : forall b,
    Forall consistent b ->
    snd (bundle_requirements b) = concat (map (fun rf => fst (fst (parsed_fields rf))) b) /\
    map path (fst (bundle_requirements b)) = map path b.
Proof.
  induction b as [|rf b IH]; intros Hall; [split; reflexivity|].
  inversion Hall as [|? ? Hrf Hb]; subst.
  destruct (IH Hb) as [IH1 IH2].
  destruct (requirements_consistent Hrf) as (Hr & _ & _).
  cbn [bundle_requirements].
  destruct (requirements rf) as [rf' reqs] eqn:E. cbn [snd] in Hr. subst reqs.
  destruct (bundle_requirements b) as [rest' more]. cbn [fst snd] in *.
  split.
  - cbn [map concat]. now rewrite IH1.
  - cbn [map]. f_equal; [|exact IH2].
    assert (Hrf' : rf' = fst (requirements rf)) by now rewrite E.
    rewrite Hrf'. unfold requirements. cbn [fst].
    destruct (py_not (_requirements rf)); [apply parse_keeps_source | reflexivity].
Qed.

(** X21. The requirements of a bundle are those of its files, file after
    file, each file giving what a parse pass over its content gives; and
    reading them changes the path of no file, so [has_file_in_path]
    answers as before. *)
Theorem bundle_requirements_flat : forall (b : RequirementsBundle),
    Forall consistent b ->
    snd (bundle_requirements b) = concat (map (fun rf => fst (fst (parsed_fields rf))) b) /\
    forall p, has_file_in_path (fst (bundle_requirements b)) p = has_file_in_path b p.
Proof.
  intros b Hb. destruct (bundle_requirements_concat Hb) as [H1 H2].
  split; [exact H1|]. intros p. unfold has_file_in_path.
  rewrite <- (map_id b) at 2.
  assert (Hex : forall l : list RequirementFile,
             existsb (fun req_file => Py.str_eqb p (path req_file)) l
             = existsb (Py.str_eqb p) (map path l)).
  { induction l as [|x l IHl]; [reflexivity|]. cbn [existsb map]. now rewrite IHl. }
  rewrite map_id, !Hex, H2. reflexivity.
Qed.

(** X22. An index directive does not reach into another file of the
    bundle: every requirement of the bundle sits on a line of one of the
    files and carries the index server in effect at that line of that
    file. *)
Theorem bundle_index_servers_per_file : forall (b : RequirementsBundle) (r : Requirement),
    Forall consistent b ->
    In r (snd (bundle_requirements b)) ->
    exists rf, In rf b /\
      1 <= lineno r <= length (iter_lines rf) /\
      line r = Py.strip (nth (lineno r - 1) (iter_lines rf) []) /\
      index_server r = index_in_effect (iter_lines rf) (lineno r - 1) /\
      slash_ended (index_server r).
Proof.
  intros b r Hb Hin.
  destruct (bundle_requirements_concat Hb) as [H1 _]. rewrite H1 in Hin.
  apply in_concat in Hin. destruct Hin as (l & Hl & Hr).
  apply in_map_iff in Hl. destruct Hl as (rf & <- & Hrf).
  exists rf. split; [exact Hrf|].
  pose proof (@parse_lines_placed lib catalog (iter_lines rf) (iter_lines rf) []
                (path rf) None [] [] eq_refl eq_refl (Forall_nil _)) as H.
  cbn [length] in H. rewrite Forall_forall in H. exact (H r Hr).
Qed.

End Reading.

(** ** The further properties on the sample collaborators *)

Lemma resolve_file_in_directory_witness :
  has_char "/"%char (L"dev.txt") = false /\
  resolve_file (L"reqs/sub" ++ L"/" ++ L"dev.txt") (L"-r base.txt")
  = L"reqs/sub" ++ L"/" ++ resolve_file (L"dev.txt") (L"-r base.txt").
Proof.
  split; [reflexivity|]. apply resolve_file_in_directory. reflexivity.
Defined.

Lemma resolve_file_target_witness :
  has_char "/"%char (L"dev.txt") = false /\
  Py.isin (L"-r ") (L"base.txt") = false /\
  Py.isin (L"--requirement ") (L"base.txt") = false /\
  Py.isin (L" #") (L"base.txt") = false /\
  resolve_file (L"dev.txt") (L"-r " ++ L"base.txt") = L"base.txt" /\
  resolve_file (L"dev.txt") (L"--requirement " ++ L"base.txt") = L"base.txt".
Proof.
  split; [reflexivity|]. split; [reflexivity|]. split; [reflexivity|].
  split; [reflexivity|]. apply resolve_file_target; reflexivity.
Defined.

Lemma parse_index_server_url_witness :
  has_char " "%char (L"--index-url") = false /\
  has_char "#"%char (L"--index-url") = false /\
  has_char " "%char (L"http://pypi.local/simple") = false /\
  has_char "#"%char (L"http://pypi.local/simple") = false /\
  Py.strip (L"http://pypi.local/simple") = L"http://pypi.local/simple" /\
  parse_index_server (L"--index-url" ++ L" " ++ L"http://pypi.local/simple")
  = Some (L"http://pypi.local/simple/") /\
  forall comment,
    parse_index_server
      (L"--index-url" ++ L" " ++ L"http://pypi.local/simple" ++ L" #" ++ comment)
    = Some (L"http://pypi.local/simple/").
Proof.
  split; [reflexivity|]. split; [reflexivity|]. split; [reflexivity|].
  split; [reflexivity|]. split; [reflexivity|].
  exact (@parse_index_server_url (L"--index-url") (L"http://pypi.local/simple")
           eq_refl eq_refl eq_refl eq_refl eq_refl).
Defined.

Lemma parse_index_server_without_space_witness :
  has_char " "%char (L"--index-url=http://pypi.local/simple") = false /\
  parse_index_server (L"--index-url=http://pypi.local/simple") = None.
Proof.
  split; [reflexivity|]. apply parse_index_server_without_space. reflexivity.
Defined.

Lemma parse_index_server_two_spaces_witness :
  has_char " "%char (L"-i") = false /\ has_char "#"%char (L"-i") = false /\
  parse_index_server (L"-i" ++ L"  " ++ L"http://pypi.local/simple") = Some (L"/").
Proof.
  split; [reflexivity|]. split; [reflexivity|].
  apply parse_index_server_two_spaces; reflexivity.
Defined.

Lemma new_line_keeps_comment_witness :
  line commented_req = L"package==1.0.0  " ++ "#"%char :: L" comment" /\
  has_char "#"%char (L"package==1.0.0  ") = false /\
  new_line commented_req (Some (L"1.2.0"))
  = name commented_req ++ L"==" ++ Py.format_opt (Some (L"1.2.0")) ++ L" #" ++ L" comment".
Proof.
  split; [reflexivity|]. split; [reflexivity|].
  apply new_line_keeps_comment with (code := L"package==1.0.0  "); reflexivity.
Defined.

Lemma update_content_without_line_witness :
  latest_version_within_specs (catalog := shelf_catalog) commented_req
  = Ok (Some (L"1.2.0")) /\
  line commented_req <> [] /\
  has_char Py.LF (line commented_req) = false /\
  has_char "\"%char (new_line commented_req (Some (L"1.2.0"))) = false /\
  ~ In (line commented_req) (lf_lines with_index_servers) /\
  ~ In (line commented_req ++ [Py.CR]) (lf_lines with_index_servers) /\
  update_content (catalog := shelf_catalog) commented_req with_index_servers
  = Ok with_index_servers.
Proof.
  assert (H1 : ~ In (line commented_req) (lf_lines with_index_servers)).
  { intros H. vm_compute in H. repeat (destruct H as [H|H]; [discriminate H|]). exact H. }
  assert (H2 : ~ In (line commented_req ++ [Py.CR]) (lf_lines with_index_servers)).
  { intros H. vm_compute in H. repeat (destruct H as [H|H]; [discriminate H|]). exact H. }
  split; [reflexivity|]. split; [discriminate|]. split; [reflexivity|].
  split; [reflexivity|]. split; [exact H1|]. split; [exact H2|].
  apply update_content_without_line with (v := Some (L"1.2.0"));
    try reflexivity; try assumption. discriminate.
Defined.

Lemma update_content_line_by_line_witness :
  latest_version_within_specs (catalog := shelf_catalog) commented_req
  = Ok (Some (L"1.2.0")) /\
  line commented_req <> [] /\
  has_char Py.LF (line commented_req) = false /\
  has_char "\"%char (new_line commented_req (Some (L"1.2.0"))) = false /\
  has_char Py.LF (new_line commented_req (Some (L"1.2.0"))) = false /\
  exists out,
    update_content (catalog := shelf_catalog) commented_req three_lines = Ok out /\
    lf_lines out
    = map (rewrite_line (line commented_req) (new_line commented_req (Some (L"1.2.0"))))
          (lf_lines three_lines).
Proof.
  split; [reflexivity|]. split; [discriminate|]. split; [reflexivity|].
  split; [reflexivity|]. split; [reflexivity|].
  apply update_content_line_by_line; try reflexivity. discriminate.
Defined.

Lemma update_content_idempotent_witness :
  latest_version_within_specs (catalog := shelf_catalog) commented_req
  = Ok (Some (L"1.2.0")) /\
  line commented_req <> [] /\
  has_char Py.LF (line commented_req) = false /\
  has_char Py.CR (line commented_req) = false /\
  has_char "\"%char (new_line commented_req (Some (L"1.2.0"))) = false /\
  has_char Py.LF (new_line commented_req (Some (L"1.2.0"))) = false /\
  has_char Py.CR (new_line commented_req (Some (L"1.2.0"))) = false /\
  update_content (catalog := shelf_catalog) commented_req three_lines
  = Ok three_lines_updated /\
  update_content (catalog := shelf_catalog) commented_req three_lines_updated
  = Ok three_lines_updated.
Proof.
  split; [reflexivity|]. split; [discriminate|]. split; [reflexivity|].
  split; [reflexivity|]. split; [reflexivity|]. split; [reflexivity|].
  split; [reflexivity|]. split; [reflexivity|].
  apply update_content_idempotent with (v := Some (L"1.2.0")) (content := three_lines);
    try reflexivity. discriminate.
Defined.

Lemma get_latest_version_within_specs_any_order_witness :
  VersionOrder Sample.lib /\
  (forall v, In v range_versions <-> In v (rev range_versions)) /\
  match get_latest_version_within_specs (lib := Sample.lib)
          range_specs range_versions None,
        get_latest_version_within_specs (lib := Sample.lib)
          range_specs (rev range_versions) None with
  | Ok (Some m), Ok (Some m') =>
      version_lt (parse_version (PkgResources := Sample.lib) m) (parse_version m') = false /\
      version_lt (parse_version (PkgResources := Sample.lib) m') (parse_version m) = false
  | Ok None, Ok None => True
  | Raise e, Raise e' => e = e'
  | _, _ => False
  end.
Proof.
  split; [exact sample_version_order|].
  split; [intros v; apply in_rev|].
  apply (get_latest_version_within_specs_any_order sample_version_order).
  intros v. apply in_rev.
Defined.

Lemma needs_update_loose_witness :
  specs unknown_req = [] /\
  needs_update (catalog := shelf_catalog) unknown_req = (unknown_req, Ok true).
Proof.
  split; [reflexivity|]. apply needs_update_loose. reflexivity.
Defined.

Lemma is_outdated_pinned_witness :
  VersionOrder Sample.lib /\
  specs commented_req = [(L"==", L"1.0.0")] /\
  filter commented_req = None /\
  package (catalog := shelf_catalog) commented_req = Some package_entry /\
  latest_version_of package_entry (prereleases commented_req) = Some (L"1.2.0") /\
  is_outdated (catalog := shelf_catalog) commented_req = (commented_req, Ok true).
Proof.
  split; [exact sample_version_order|]. split; [reflexivity|]. split; [reflexivity|].
  split; [reflexivity|]. split; [reflexivity|].
  destruct (@is_outdated_pinned Sample.lib shelf_catalog sample_version_order
              commented_req (L"1.0.0") package_entry (L"1.2.0")
              eq_refl eq_refl eq_refl eq_refl) as [H _].
  exact H.
Defined.

Lemma version_appends_filter_witness :
  is_ranged filtered_req = true /\
  filter filtered_req = Some [(L"<", L"1.5")] /\
  specs (Nat.iter 3 (fun x => fst (version (catalog := shelf_catalog) x)) filtered_req)
  = specs filtered_req ++ concat (repeat [(L"<", L"1.5")] 3).
Proof.
  split; [reflexivity|]. split; [reflexivity|].
  apply version_appends_filter; reflexivity.
Defined.

Lemma recorded_requirements_witness :
  let r := nth 1 indexed_requirements commented_req in
  _requirements (_parse (catalog := shelf_catalog) indexed_file) = Some indexed_requirements /\
  In r indexed_requirements /\
  parse (line r) (lineno r) (index_server r) = Ok r /\
  package (catalog := shelf_catalog) r <> None /\
  line r <> [] /\
  Py.startswith (L"#") (line r) = false /\
  is_index_directive (line r) = false /\
  is_include_directive (line r) = false /\
  is_noop_flag (line r) = false /\
  Py.isin (L"pyup: ignore") (line r) = false.
Proof.
  intros r.
  assert (H1 : _requirements (_parse (catalog := shelf_catalog) indexed_file)
               = Some indexed_requirements) by reflexivity.
  assert (H2 : In r indexed_requirements) by (right; left; reflexivity).
  split; [exact H1|]. split; [exact H2|].
  exact (@recorded_requirements Sample.lib shelf_catalog indexed_file
           indexed_requirements r H1 H2).
Defined.

Lemma requirements_in_line_order_witness :
  _requirements (_parse (catalog := shelf_catalog) indexed_file) = Some indexed_requirements /\
  StronglySorted (fun a b : Requirement => lineno a < lineno b) indexed_requirements.
Proof.
  assert (H1 : _requirements (_parse (catalog := shelf_catalog) indexed_file)
               = Some indexed_requirements) by reflexivity.
  split; [exact H1|].
  exact (@requirements_in_line_order Sample.lib shelf_catalog indexed_file
           indexed_requirements H1).
Defined.

Lemma valid_file_has_entries_witness :
  snd (is_valid (lib := Sample.lib) (catalog := shelf_catalog)
         (new_file (L"requirements.txt") with_index_servers None)) = Some true /\
  (snd (requirements (lib := Sample.lib) (catalog := shelf_catalog)
          (new_file (L"requirements.txt") with_index_servers None)) <> Some [] \/
   snd (other_files (lib := Sample.lib) (catalog := shelf_catalog)
          (new_file (L"requirements.txt") with_index_servers None)) <> Some []).
Proof.
  split; [reflexivity|]. apply valid_file_has_entries. reflexivity.
Defined.

Lemma valid_iff_entries_witness :
  Forall (fun raw => Py.isin (L"pyup: ignore file") (Py.strip raw) = false)
         (firstn 2 (iter_lines indexed_file)) /\
  _requirements (_parse (catalog := shelf_catalog) indexed_file) = Some indexed_requirements /\
  _other_files (_parse (catalog := shelf_catalog) indexed_file) = Some [] /\
  _is_valid (_parse (catalog := shelf_catalog) indexed_file) = Some true /\
  (true = true <-> indexed_requirements <> [] \/ @nil str <> []).
Proof.
  assert (H0 : Forall (fun raw => Py.isin (L"pyup: ignore file") (Py.strip raw) = false)
                      (firstn 2 (iter_lines indexed_file))).
  { repeat constructor. }
  split; [exact H0|]. split; [reflexivity|]. split; [reflexivity|]. split; [reflexivity|].
  exact (@valid_iff_entries Sample.lib shelf_catalog indexed_file indexed_requirements
           [] true H0 eq_refl eq_refl eq_refl).
Defined.

Lemma accessors_agree_with_parse_witness :
  consistent (catalog := shelf_catalog) indexed_file /\
  snd (requirements (catalog := shelf_catalog) indexed_file)
  = Some (fst (fst (parsed_fields (catalog := shelf_catalog) indexed_file))) /\
  snd (other_files (catalog := shelf_catalog) indexed_file)
  = Some (snd (fst (parsed_fields (catalog := shelf_catalog) indexed_file))) /\
  snd (is_valid (catalog := shelf_catalog) indexed_file)
  = Some (snd (parsed_fields (catalog := shelf_catalog) indexed_file)).
Proof.
  assert (H0 : consistent (catalog := shelf_catalog) indexed_file).
  { left. repeat split. }
  split; [exact H0|].
  destruct (accessors_agree_with_parse H0) as ((H1 & _) & (H2 & _) & (H3 & _)).
  split; [exact H1|]. split; [exact H2 | exact H3].
Defined.

Lemma bundle_requirements_flat_witness :
  Forall (consistent (catalog := shelf_catalog)) two_files /\
  snd (bundle_requirements (catalog := shelf_catalog) two_files)
  = concat (map (fun rf => fst (fst (parsed_fields (catalog := shelf_catalog) rf))) two_files) /\
  forall p,
    has_file_in_path (fst (bundle_requirements (catalog := shelf_catalog) two_files)) p
    = has_file_in_path two_files p.
Proof.
  assert (H0 : Forall (consistent (catalog := shelf_catalog)) two_files).
  { repeat constructor. }
  split; [exact H0|]. exact (bundle_requirements_flat H0).
Defined.

Lemma bundle_index_servers_per_file_witness :
  let r := nth 3 (snd (bundle_requirements (catalog := shelf_catalog) two_files))
               commented_req in
  Forall (consistent (catalog := shelf_catalog)) two_files /\
  In r (snd (bundle_requirements (catalog := shelf_catalog) two_files)) /\
  exists rf, In rf two_files /\
    1 <= lineno r <= length (iter_lines rf) /\
    line r = Py.strip (nth (lineno r - 1) (iter_lines rf) []) /\
    index_server r = index_in_effect (iter_lines rf) (lineno r - 1) /\
    slash_ended (index_server r).
Proof.
  intros r.
  assert (H0 : Forall (consistent (catalog := shelf_catalog)) two_files).
  { repeat constructor. }
  assert (H1 : In r (snd (bundle_requirements (catalog := shelf_catalog) two_files))).
  { right. right. right. left. reflexivity. }
  split; [exact H0|]. split; [exact H1|].
  exact (bundle_index_servers_per_file r H0 H1).
Defined.

(** The requirements of the two sample files, by line and index server:
    the directive of the first file does not reach the second. *)
Example two_files_requirements :
  map (fun r => (line r, index_server r))
      (snd (bundle_requirements (catalog := shelf_catalog) two_files))
  = [ (L"Django==1.8", None);
      (L"package==1.0.0", Some (L"http://pypi.local/simple/"));
      (L"ranged>=1.0,<2.0", Some (L"http://mirror.local/"));
      (L"Django==1.8", None);
      (L"package==1.0.0  # comment", None);
      (L"ranged>=1.0", None) ].
Proof. reflexivity. Qed.

(** ** The filter of a line *)

Lemma startswith_front : forall sep a b,
    length sep <= length a -> Py.startswith sep (a ++ b) = Py.startswith sep a.
Proof.
  induction sep as [|c sep IH]; intros a b H; [reflexivity|].
  destruct a as [|x a]; [simpl in H; lia|].
  cbn [app Py.startswith]. rewrite IH; [reflexivity | simpl in H; lia].
Qed.

Lemma removelast_length : forall (l : str), l <> [] -> length l = S (length (removelast l)).
Proof.
  intros l H. rewrite (app_removelast_last " "%char H) at 1.
  rewrite length_app. simpl. lia.
Qed.

(** [partition] at the first occurrence of the separator: none starts
    before it. *)
Lemma partition_at : forall sep pre rest,
    sep <> [] ->
    Py.isin sep (pre ++ removelast sep) = false ->
    Py.partition sep (pre ++ sep ++ rest) = Some (pre, rest).
Proof.
  intros sep pre rest Hsep. induction pre as [|c pre IH]; intros H.
  - cbn [app]. apply partition_prefix.
  - cbn [app Py.isin] in H. apply orb_false_elim in H. destruct H as [H1 H2].
    cbn [app Py.partition].
    assert (Hno : Py.startswith sep (c :: pre ++ sep ++ rest) = false).
    { rewrite (app_removelast_last " "%char Hsep) at 2.
      rewrite <- app_assoc.
      change (c :: pre ++ removelast sep ++ [last sep " "%char] ++ rest)
        with ((c :: pre) ++ removelast sep ++ [last sep " "%char] ++ rest).
      rewrite app_assoc, startswith_front; [exact H1|].
      rewrite length_app, (removelast_length Hsep). simpl. lia. }
    rewrite Hno, IH by assumption. reflexivity.
Qed.

Lemma isin_middle : forall sep pre rest, Py.isin sep (pre ++ sep ++ rest) = true.
Proof.
  intros sep. induction pre as [|c pre IH]; intros rest.
  - cbn [app]. destruct (sep ++ rest) eqn:E; cbn [Py.isin]; rewrite <- E;
      now rewrite startswith_app.
  - cbn [app Py.isin]. rewrite IH. apply orb_true_r.
Qed.

(** [s.split(sep)] at the first occurrence of the separator. *)
Lemma split_at : forall sep pre rest,
    sep <> [] ->
    Py.isin sep (pre ++ removelast sep) = false ->
    Py.split sep (pre ++ sep ++ rest) = pre :: Py.split sep rest.
Proof.
  intros sep pre rest Hsep H. unfold Py.split.
  destruct (length (pre ++ sep ++ rest)) as [|n] eqn:E.
  { rewrite !length_app in E. destruct sep; [congruence | simpl in E; lia]. }
  cbn [Py.split_fuel]. rewrite partition_at by assumption. f_equal.
  assert (Hlen : 0 < length sep) by (destruct sep; [congruence | simpl; lia]).
  apply split_fuel_enough; [assumption | | lia].
  rewrite !length_app in E. lia.
Qed.

Section Filters.

Context {lib : PkgResources} {catalog : Catalog}.

(** The text behind the first [marker] of a line, up to the next one,
    gives the directive: its first word. *)
Lemma directive_after_marker : forall marker pre rest directive tail,
    marker <> [] ->
    Py.isin marker (pre ++ removelast marker) = false ->
    Py.strip (nth 0 (Py.split marker rest) []) = directive ++ tail ->
    has_char " "%char directive = false ->
    (tail = [] \/ exists t, tail = " "%char :: t) ->
    directive_after marker (pre ++ marker ++ rest) = directive.
Proof.
  intros marker pre rest directive tail Hm Hfirst Hstrip Hd Htail.
  unfold directive_after. rewrite split_at by assumption. cbn [nth].
  rewrite Hstrip. change (L" ") with [" "%char].
  destruct Htail as [-> | [t ->]].
  - rewrite app_nil_r, split_char_absent by assumption. reflexivity.
  - rewrite split_first by assumption. reflexivity.
Qed.

(** C5. A line that carries a filter directive, behind the legacy marker
    [rq.filter:] or, when that one is absent, behind [pyup:], with a
    directive (the first word behind the first marker) that parses to
    specs: [filter] is those specs, and [latest_version_within_specs] is
    the answer of the resolver for those specs alone over the versions of
    the package.  A requirement without filter has [latest_version], and a
    line without marker gives no filter. *)
Theorem latest_version_within_specs_filter :
  forall (r : Requirement) marker pre rest directive tail parsed,
    (marker = L"rq.filter:" \/
     (marker = L"pyup:" /\ Py.isin (L"rq.filter:") (line r) = false)) ->
    line r = pre ++ marker ++ rest ->
    Py.isin marker (pre ++ removelast marker) = false ->
    Py.strip (nth 0 (Py.split marker rest) []) = directive ++ tail ->
    directive <> [] ->
    has_char " "%char directive = false ->
    (tail = [] \/ exists t, tail = " "%char :: t) ->
    parse_one (L"filter " ++ directive) = Ok parsed ->
    dist_specs parsed <> [] ->
    filter r = Some (dist_specs parsed) /\
    latest_version_within_specs r =
      (vs <- package_versions r ;;
       get_latest_version_within_specs (dist_specs parsed) vs (Some (prereleases r))) /\
    (forall r' : Requirement,
        filter r' = None -> latest_version_within_specs r' = latest_version r') /\
    (forall r' : Requirement,
        Py.isin (L"rq.filter:") (line r') = false ->
        Py.isin (L"pyup:") (line r') = false ->
        filter r' = None).
Proof.
  intros r marker pre rest directive tail parsed Hm Hline Hfirst Hstrip Hne Hd Htail
         Hparse Hspecs.
  assert (Hmne : marker <> []) by (destruct Hm as [-> | [-> _]]; discriminate).
  assert (Hdir : directive_after marker (line r) = directive).
  { rewrite Hline. now apply directive_after_marker with (tail := tail). }
  assert (Hin : Py.isin marker (line r) = true).
  { rewrite Hline. apply isin_middle. }
  assert (Hfilter : filter r = Some (dist_specs parsed)).
  { unfold filter.
    assert (Hsel : (if Py.isin (L"rq.filter:") (line r)
                    then Some (directive_after (L"rq.filter:") (line r))
                    else if Py.isin (L"pyup:") (line r)
                         then Some (directive_after (L"pyup:") (line r))
                         else None) = Some directive).
    { destruct Hm as [-> | [-> Hno]].
      - now rewrite Hin, Hdir.
      - now rewrite Hno, Hin, Hdir. }
    rewrite Hsel. destruct directive as [|c f]; [congruence|].
    rewrite Hparse.
    destruct (dist_specs parsed) as [|sp l]; [congruence | reflexivity]. }
  split; [exact Hfilter|]. split; [|split].
  - unfold latest_version_within_specs. now rewrite Hfilter.
  - intros r' H. unfold latest_version_within_specs. now rewrite H.
  - intros r' H1 H2. unfold filter. now rewrite H1, H2.
Qed.

End Filters.

(** C5, on the sample: the line [package>=1.0,<2.0  # pyup: <1.5] has the
    filter [<1.5], and the answer is [1.4.0] although [1.8.0] is within the
    specs of the line. *)
Lemma latest_version_within_specs_filter_witness :
  line filter_line_req = L"package>=1.0,<2.0  # " ++ L"pyup:" ++ L" <1.5" /\
  Py.isin (L"rq.filter:") (line filter_line_req) = false /\
  Py.isin (L"pyup:") (L"package>=1.0,<2.0  # " ++ removelast (L"pyup:")) = false /\
  Py.strip (nth 0 (Py.split (L"pyup:") (L" <1.5")) []) = L"<1.5" ++ [] /\
  parse_one (lib := Sample.lib) (L"filter " ++ L"<1.5") = Ok filter_dist /\
  filter filter_line_req = Some [(L"<", L"1.5")] /\
  latest_version_within_specs (catalog := range_catalog) filter_line_req
  = Ok (Some (L"1.4.0")) /\
  get_latest_version_within_specs (lib := Sample.lib) (specs filter_line_req)
    [L"2.1.0"; L"1.0.0"; L"1.4.0"; L"1.8.0"] (Some false) = Ok (Some (L"1.8.0")).
Proof.
  split; [reflexivity|]. split; [reflexivity|]. split; [reflexivity|].
  split; [reflexivity|]. split; [reflexivity|].
  destruct (@latest_version_within_specs_filter Sample.lib range_catalog
              filter_line_req (L"pyup:") (L"package>=1.0,<2.0  # ") (L" <1.5")
              (L"<1.5") [] filter_dist)
    as (Hf & Hl & _); try reflexivity; try discriminate.
  - right. split; reflexivity.
  - now left.
  - split; [exact Hf|]. split; [|reflexivity].
    rewrite Hl. reflexivity.
Defined.

(** ** The URL of an index directive *)

Section DirectiveUrl.

Context {lib : PkgResources} {catalog : Catalog}.

(** The flags of an index directive. *)
Lemma index_flag_directive : forall flag s,
    In flag [L"-i"; L"--index-url"; L"--extra-index-url"] ->
    is_index_directive (flag ++ s) = true /\
    has_char " "%char flag = false /\ has_char "#"%char flag = false.
Proof.
  intros flag s [<- | [<- | [<- | []]]]; repeat split; reflexivity.
Qed.

(** The text before the first [#] of [flag url tail], when a space, a [#]
    or nothing follows the URL: the URL is still followed by a space or by
    nothing. *)
Lemma comment_stripped : forall flag url tail,
    has_char "#"%char flag = false -> has_char "#"%char url = false ->
    (tail = [] \/ exists c t, tail = c :: t /\ (c = " "%char \/ c = "#"%char)) ->
    exists t0,
      nth 0 (Py.split (L"#") (flag ++ L" " ++ url ++ tail)) [] = flag ++ L" " ++ url ++ t0 /\
      (t0 = [] \/ exists t, t0 = " "%char :: t).
Proof.
  intros flag url tail Hf Hu Htail. change (L"#") with ["#"%char].
  change (L" ") with [" "%char].
  destruct (has_char "#"%char tail) eqn:Ht.
  - destruct (first_occurrence _ _ Ht) as (t0 & t1 & -> & Ht0). exists t0. split.
    + replace (flag ++ [" "%char] ++ url ++ t0 ++ "#"%char :: t1)
        with ((flag ++ [" "%char] ++ url ++ t0) ++ "#"%char :: t1)
        by (rewrite <- !app_assoc; reflexivity).
      rewrite split_first; [reflexivity|].
      rewrite !has_char_app, Hf, Hu, Ht0. reflexivity.
    + destruct Htail as [H | (c & t & H & Hc)].
      * destruct t0; discriminate.
      * destruct t0 as [|x t0]; [now left|]. right. exists t0.
        cbn [app] in H. injection H as -> _.
        destruct Hc as [-> | ->]; [reflexivity|].
        rewrite has_char_cons, Ascii.eqb_refl in Ht0. discriminate.
  - exists tail. split.
    + rewrite split_char_absent; [reflexivity|].
      rewrite !has_char_app, Hf, Hu, Ht. reflexivity.
    + destruct Htail as [H | (c & t & -> & [-> | ->])]; [now left | right; now exists t|].
      rewrite has_char_cons, Ascii.eqb_refl in Ht. discriminate.
Qed.

(** An index directive [flag url], followed by nothing, by a space or by a
    comment, gives the URL, with a slash added when it has none at its
    end. *)
Lemma parse_index_server_flag_url : forall flag url tail,
    has_char " "%char flag = false -> has_char "#"%char flag = false ->
    has_char " "%char url = false -> has_char "#"%char url = false ->
    Py.strip url = url ->
    (tail = [] \/ exists c t, tail = c :: t /\ (c = " "%char \/ c = "#"%char)) ->
    parse_index_server (flag ++ L" " ++ url ++ tail)
    = Some (if Py.endswith (L"/") url then url else url ++ L"/").
Proof.
  intros flag url tail Hf1 Hf2 Hu1 Hu2 Hstrip Htail. unfold parse_index_server.
  destruct (@comment_stripped flag url tail Hf2 Hu2 Htail) as (t0 & -> & Ht0).
  change (L" ") with [" "%char]. cbn [app].
  rewrite split_first by assumption.
  destruct Ht0 as [-> | [t ->]].
  - rewrite app_nil_r, split_char_absent by assumption. now rewrite Hstrip.
  - rewrite split_first by assumption. now rewrite Hstrip.
Qed.

(** An index directive without a space gives no index server. *)
Lemma parse_index_server_spaceless : forall ln,
    has_char " "%char ln = false -> parse_index_server ln = None.
Proof.
  intros ln H. unfold parse_index_server.
  destruct (split_head_prefix (L"#") ln) as [rest Hrest].
  rewrite Hrest, has_char_app in H. apply orb_false_elim in H. destruct H as [H _].
  change (L" ") with [" "%char]. now rewrite split_char_absent.
Qed.

(** What a parse pass records is placed on the lines of the file. *)
Lemma parse_placed : forall (rf : RequirementFile) reqs r,
    _requirements (_parse rf) = Some reqs -> In r reqs -> placed (iter_lines rf) r.
Proof.
  intros rf reqs r Hparse Hin.
  pose proof (@parse_lines_placed _ _ (iter_lines rf) (iter_lines rf) [] (path rf)
                None [] [] eq_refl eq_refl (Forall_nil _)) as H.
  cbn [length] in H. unfold _parse in Hparse.
  destruct (parse_lines (path rf) 0 (iter_lines rf) None [] []) as [[rs fs] valid].
  cbn [_requirements] in Hparse. injection Hparse as <-.
  cbn [fst] in H. rewrite Forall_forall in H. exact (H r Hin).
Qed.

(** C7. Every requirement a parse pass records sits on a line of the file,
    and its index server is decided by the lines of that file before it.
    With no index directive before it, it has none.  When the last index
    directive before it reads [flag url], with one space between the flag
    ([-i], [--index-url] or [--extra-index-url]) and the URL, and with
    nothing, a space or a comment behind the URL, its index server is the
    URL, with a slash added when it has none at its end.  When the last
    index directive before it holds no space at all, it has none. *)
Theorem index_directive_scope :
  forall (rf : RequirementFile) (reqs : list Requirement) (r : Requirement),
    _requirements (_parse rf) = Some reqs ->
    In r reqs ->
    1 <= lineno r <= length (iter_lines rf) /\
    line r = Py.strip (nth (lineno r - 1) (iter_lines rf) []) /\
    (Forall (fun l => is_index_directive (Py.strip l) = false)
            (firstn (lineno r - 1) (iter_lines rf)) ->
     index_server r = None) /\
    (forall pre raw mid rest flag url tail,
        iter_lines rf = pre ++ raw :: mid ++ rest ->
        lineno r - 1 = length pre + 1 + length mid ->
        Forall (fun l => is_index_directive (Py.strip l) = false) mid ->
        Py.strip raw = flag ++ L" " ++ url ++ tail ->
        In flag [L"-i"; L"--index-url"; L"--extra-index-url"] ->
        has_char " "%char url = false -> has_char "#"%char url = false ->
        Py.strip url = url ->
        (tail = [] \/ exists c t, tail = c :: t /\ (c = " "%char \/ c = "#"%char)) ->
        index_server r = Some (if Py.endswith (L"/") url then url else url ++ L"/")) /\
    (forall pre raw mid rest,
        iter_lines rf = pre ++ raw :: mid ++ rest ->
        lineno r - 1 = length pre + 1 + length mid ->
        Forall (fun l => is_index_directive (Py.strip l) = false) mid ->
        is_index_directive (Py.strip raw) = true ->
        has_char " "%char (Py.strip raw) = false ->
        index_server r = None).
Proof.
  intros rf reqs r Hparse Hin.
  destruct (@parse_placed rf reqs r Hparse Hin) as (Hno & Hline & Hidx & _).
  split; [exact Hno|]. split; [exact Hline|]. split; [|split].
  - intros Hnone. rewrite Hidx. now apply index_in_effect_none.
  - intros pre raw mid rest flag url tail Hlines Hk Hmid Hraw Hflag Hu1 Hu2 Hstrip Htail.
    destruct (@index_flag_directive flag (L" " ++ url ++ tail) Hflag) as (Hdir & Hf1 & Hf2).
    rewrite <- Hraw in Hdir.
    rewrite Hidx, Hlines, Hk, index_in_effect_last by assumption.
    rewrite Hraw. now apply parse_index_server_flag_url.
  - intros pre raw mid rest Hlines Hk Hmid Hdir Hspace.
    rewrite Hidx, Hlines, Hk, index_in_effect_last by assumption.
    now apply parse_index_server_spaceless.
Qed.

End DirectiveUrl.

(** C7, on the sample: the requirement of the third line of
    [with_index_servers] has the URL of the second line, with a slash. *)
Lemma index_directive_scope_witness :
  let r := nth 1 indexed_requirements commented_req in
  _requirements (_parse (catalog := shelf_catalog) indexed_file) = Some indexed_requirements /\
  In r indexed_requirements /\
  lineno r = 3 /\
  iter_lines indexed_file =
    [L"Django==1.8"] ++ L"-i http://pypi.local/simple" :: [] ++
    [L"package==1.0.0"; L"--extra-index-url http://mirror.local/ # fallback";
     L"ranged>=1.0,<2.0"] /\
  index_server r = Some (L"http://pypi.local/simple/").
Proof.
  intros r.
  assert (H1 : _requirements (_parse (catalog := shelf_catalog) indexed_file)
               = Some indexed_requirements) by reflexivity.
  assert (H2 : In r indexed_requirements) by (right; left; reflexivity).
  split; [exact H1|]. split; [exact H2|]. split; [reflexivity|]. split; [reflexivity|].
  destruct (@index_directive_scope Sample.lib shelf_catalog indexed_file
              indexed_requirements r H1 H2) as (_ & _ & _ & Hurl & _).
  apply (Hurl [L"Django==1.8"] (L"-i http://pypi.local/simple") []
              [L"package==1.0.0"; L"--extra-index-url http://mirror.local/ # fallback";
               L"ranged>=1.0,<2.0"]
              (L"-i") (L"http://pypi.local/simple") []);
    try reflexivity.
  - constructor.
  - now left.
  - now left.
Defined.

(** C7 as worded fails: with two spaces behind the flag the index server
    of the next requirement is ["/"], not the URL of the directive; and a
    directive [--index-url=URL] leaves the next requirement without index
    server, although an earlier directive had set one. *)
Lemma index_directive_two_spaces_refuted :
  (exists r : Requirement (lib := Sample.lib),
      _requirements (_parse (catalog := shelf_catalog)
                       (new_file (L"requirements.txt") two_space_directive None))
      = Some [r] /\
      lineno r = 2 /\ line r = L"Django==1.8" /\
      nth 0 (iter_lines (new_file (lib := Sample.lib) (L"requirements.txt")
                           two_space_directive None)) []
      = L"-i  http://pypi.local/simple" /\
      index_server r = Some (L"/") /\
      index_server r <> Some (L"http://pypi.local/simple/")) /\
  (exists r : Requirement (lib := Sample.lib),
      _requirements (_parse (catalog := shelf_catalog)
                       (new_file (L"requirements.txt") equals_directive None))
      = Some [r] /\
      lineno r = 3 /\ line r = L"Django==1.8" /\
      nth 1 (iter_lines (new_file (lib := Sample.lib) (L"requirements.txt")
                           equals_directive None)) []
      = L"--index-url=http://mirror.local/" /\
      index_server r = None /\
      index_server r <> Some (L"http://mirror.local/")).
Proof.
  split.
  - eexists. split; [reflexivity|]. repeat split; try reflexivity. discriminate.
  - eexists. split; [reflexivity|]. repeat split; try reflexivity. discriminate.
Qed.

(** ** Equality through the comparator *)

Section Comparator.

Context {lib : PkgResources} {catalog : Catalog}.





End Comparator.


